(** * Breadboard EEPROM programmer ([bbeeprog.py])

    A shallow embedding of the two classes of [bbeeprog.py]:
    - [SN74LV8153]: one serial-in/parallel-out chip on the shared UART,
      with the two-telegram nibble protocol and redundant-write
      suppression;
    - [BbEeProg]: the programmer that owns three chips (low address byte,
      high address byte with the nWE line on bit 7, data byte), the timed
      byte write and the diff-aware [write] driver.

    Python integers are [Z]; [&], [|], [<<], [>>] are [Z.land], [Z.lor],
    [Z.shiftl], [Z.shiftr], which agree with Python on negative numbers
    too.  Methods are computations in a state-and-exception monad; the
    state is the receiver object paired with the outside world. *)

From Stdlib Require Import String ZArith List Bool Lia.
Import ListNotations.
Open Scope Z_scope.

(** ** Exceptions and the state-and-exception monad *)

(** The exceptions the modelled code can raise: a failed [assert] (with
    its message, if it has one), the [ValueError] of [bytes([...])] on an
    element outside [range(256)], and the [UnboundLocalError] of reading a
    local variable that was never assigned. *)
Inductive exn : Type :=
| AssertionError (msg : option string)
| ValueError
| UnboundLocalError (name : string).

Inductive Result (A : Type) : Type :=
| Ok (a : A)
| Raise (e : exn).
Arguments Ok {A} a.
Arguments Raise {A} e.

(** A computation over a mutable state [S]: the state that is returned
    next to [Raise e] is the state at the moment the exception left the
    computation (mutations done before it stay done, as in Python). *)
Definition M (S A : Type) : Type := S -> Result A * S.

Definition ret {S A} (a : A) : M S A := fun s => (Ok a, s).

Definition raise {S A} (e : exn) : M S A := fun s => (Raise e, s).

Definition bind {S A B} (m : M S A) (k : A -> M S B) : M S B :=
  fun s =>
    match m s with
    | (Ok a, s') => k a s'
    | (Raise e, s') => (Raise e, s')
    end.

Notation "x <- m ;; k" := (bind m (fun x => k))
  (at level 61, m at next level, right associativity).
Notation "m ;; k" := (bind m (fun _ => k))
  (at level 61, right associativity).

Definition lift {S A} (r : Result A) : M S A := fun s => (r, s).

(** [assert cond] and [assert cond, msg]. *)
Definition assert {S} (cond : bool) (msg : option string) : M S unit :=
  if cond then ret tt else raise (AssertionError msg).

(** ** The outside world: serial port, clock, console *)

(** A line of progress output of [BbEeProg.write].  The three numbers are
    the three values the f-string formats: first address, last address and
    byte count. *)
Inductive Report : Type :=
| Wrote (first last count : Z)
| Skipped (first last count : Z)
| NothingToDo.

(** What an observer of a run can see, in the order it happens.
    [ChanWrite] and [ByteWrite] record calls (with the arguments as the
    caller passed them), so that statements about which calls happen, and
    in which order, can be made; they have no effect on the run. *)
Inductive Event : Type :=
| ChanWrite (chip value : Z)   (* [SN74LV8153.write(value)] on the chip with this address *)
| ByteWrite (addr byte : Z)    (* [BbEeProg.write_byte(addr, byte)], past its assertion *)
| Sleep (us : Z)               (* [time.sleep], duration in microseconds *)
| Print (r : Report).          (* [print] *)

(** The world as a mock: the serial port is a byte sink with a baud rate,
    the clock counts microseconds (the resolution of [datetime]).  The
    clock is advanced by [time.sleep] and by the time the port takes to
    accept a telegram pair, [telegram_us]; the trace stamps every event
    with the clock at which it happens.  All three chips of a programmer
    hold a reference to the same [pyserial.Serial] object, so there is one
    [wire] per world and not one per chip. *)
Record World : Type := {
  baudrate : Z;
  wire : list Z;
  clock : Z;
  telegram_us : Z;
  trace : list (Z * Event)
}.

Definition emit (e : Event) (w : World) : World :=
  {| baudrate := baudrate w; wire := wire w; clock := clock w;
     telegram_us := telegram_us w;
     trace := trace w ++ [(clock w, e)] |}.

(** [serial.write(bs)] *)
Definition serial_write (bs : list Z) (w : World) : World :=
  {| baudrate := baudrate w; wire := wire w ++ bs;
     clock := clock w + telegram_us w;
     telegram_us := telegram_us w; trace := trace w |}.

(** [time.sleep(us / 1e6)] *)
Definition time_sleep (us : Z) (w : World) : World :=
  let w := emit (Sleep us) w in
  {| baudrate := baudrate w; wire := wire w; clock := clock w + us;
     telegram_us := telegram_us w; trace := trace w |}.

Section WorldOps.
Context {S : Type}.

Definition world (f : World -> World) : M (S * World) unit :=
  fun st => (Ok tt, (fst st, f (snd st))).

(** [datetime.datetime.now()] *)
Definition now : M (S * World) Z :=
  fun st => (Ok (clock (snd st)), st).

Definition self : M (S * World) S :=
  fun st => (Ok (fst st), st).

Definition set_self (s : S) : M (S * World) unit :=
  fun st => (Ok tt, (s, snd st)).
End WorldOps.

(** ** class SN74LV8153 *)

Module SN74LV8153.

Record t : Type := { _addr : Z; _last_value : Z }.

Definition MIN_BAUD_RATE : Z := 2000.
Definition MAX_BAUD_RATE : Z := 24000.

Definition __init__ (serial : World) (addr : Z) : Result t :=
  if (MIN_BAUD_RATE <=? baudrate serial) && (baudrate serial <=? MAX_BAUD_RATE)
  then
    if (0 <=? addr) && (addr <? 8)
    then Ok {| _addr := addr; _last_value := -1 |}
    else Raise (AssertionError None)
  else Raise (AssertionError None).

(** [bytes(l)] for a list of integers. *)
Definition bytes (l : list Z) : Result (list Z) :=
  if forallb (fun x => (0 <=? x) && (x <? 256)) l
  then Ok l else Raise ValueError.

Definition _protocol (addr value : Z) : Result (list Z) :=
  let low_nibble :=
    Z.lor (Z.lor (Z.shiftl (Z.land value 0x0F) 4) (Z.shiftl addr 1)) 1 in
  let high_nibble :=
    Z.lor (Z.lor (Z.shiftl (Z.shiftr value 4) 4) (Z.shiftl addr 1)) 1 in
  bytes [low_nibble; high_nibble].

Definition write (value : Z) : M (t * World) unit :=
  this <- self ;;
  world (emit (ChanWrite (_addr this) value)) ;;
  let value := Z.land value 0xFF in
  if value =? _last_value this then
    ret tt
  else
    telegrams <- lift (_protocol (_addr this) value) ;;
    world (serial_write telegrams) ;;
    set_self {| _addr := _addr this; _last_value := value |}.

End SN74LV8153.

(** ** class BbEeProg *)

Module BbEeProg.

Record t : Type := {
  _addr_lo : SN74LV8153.t;
  _addr_hi : SN74LV8153.t;
  _data : SN74LV8153.t;
  _dt_last_write : Z
}.

(* nWE: not Write Enable *)
Definition ADDR_HI_WRITE_DISABLE_BIT : Z := Z.shiftl 1 7.
Definition WRITE_CYCLE_MS : Z := 10 + 5.

(** [datetime.timedelta(milliseconds=ms)], in microseconds. *)
Definition timedelta_ms (ms : Z) : Z := ms * 1000.

Definition set_addr_lo (c : SN74LV8153.t) (s : t) : t :=
  {| _addr_lo := c; _addr_hi := _addr_hi s; _data := _data s;
     _dt_last_write := _dt_last_write s |}.
Definition set_addr_hi (c : SN74LV8153.t) (s : t) : t :=
  {| _addr_lo := _addr_lo s; _addr_hi := c; _data := _data s;
     _dt_last_write := _dt_last_write s |}.
Definition set_data (c : SN74LV8153.t) (s : t) : t :=
  {| _addr_lo := _addr_lo s; _addr_hi := _addr_hi s; _data := c;
     _dt_last_write := _dt_last_write s |}.
Definition set_dt_last_write (ts : Z) (s : t) : t :=
  {| _addr_lo := _addr_lo s; _addr_hi := _addr_hi s; _data := _data s;
     _dt_last_write := ts |}.

(** A method call on one of the three member chips: the chip's state is
    read from and stored back into the programmer, the world is shared. *)
Definition on {A} (get : t -> SN74LV8153.t) (set : SN74LV8153.t -> t -> t)
    (m : M (SN74LV8153.t * World) A) : M (t * World) A :=
  fun st =>
    let r := m (get (fst st), snd st) in
    (fst r, (set (fst (snd r)) (fst st), snd (snd r))).

Definition addr_lo {A} := @on A _addr_lo set_addr_lo.
Definition addr_hi {A} := @on A _addr_hi set_addr_hi.
Definition data {A} := @on A _data set_data.

(** [pyserial.Serial(port, baudrate=b)] *)
Definition Serial (b : Z) (w : World) : World :=
  {| baudrate := b; wire := wire w; clock := clock w;
     telegram_us := telegram_us w; trace := trace w |}.

Definition __enter__ (w : World) : Result t * World :=
  let serial := Serial SN74LV8153.MAX_BAUD_RATE w in
  match SN74LV8153.__init__ serial 0,
        SN74LV8153.__init__ serial 1,
        SN74LV8153.__init__ serial 2 with
  | Ok lo, Ok hi, Ok dat =>
      match SN74LV8153.write ADDR_HI_WRITE_DISABLE_BIT (hi, serial) with
      | (Ok _, (hi, w)) =>
          (Ok {| _addr_lo := lo; _addr_hi := hi; _data := dat;
                 _dt_last_write := clock w |}, w)
      | (Raise e, (_, w)) => (Raise e, w)
      end
  | _, _, _ => (Raise (AssertionError None), serial)
  end.

Definition when {S} (c : bool) (m : M S unit) : M S unit :=
  if c then m else ret tt.

Definition write_byte (addr byte : Z) : M (t * World) unit :=
  assert (addr <=? 0x7FFF) None ;;
  world (emit (ByteWrite addr byte)) ;;
  data (SN74LV8153.write byte) ;;
  addr_lo (SN74LV8153.write (Z.land addr 0xFF)) ;;
  addr_hi (SN74LV8153.write
             (Z.lor (Z.shiftr addr 8) ADDR_HI_WRITE_DISABLE_BIT)) ;;
  this <- self ;;
  t_now <- now ;;
  let delay :=
    (_dt_last_write this + timedelta_ms WRITE_CYCLE_MS) - t_now in
  when (0 <? delay) (world (time_sleep delay)) ;;
  (* strobe write enable (nWE, active low) *)
  addr_hi (SN74LV8153.write (Z.shiftr addr 8)) ;;
  addr_hi (SN74LV8153.write
             (Z.lor (Z.shiftr addr 8) ADDR_HI_WRITE_DISABLE_BIT)) ;;
  t_now <- now ;;
  this <- self ;;
  set_self (set_dt_last_write t_now this).

(** The local variables of [write]; [addr] is unbound until the [for]
    statement assigns it for the first time. *)
Record Locals : Type := {
  last_chunk_was_old : bool;
  last_chunk_start : Z;
  addr : option Z
}.

(** [itertools.zip_longest(data, old_data)], [None] as the fill value. *)
Fixpoint zip_longest (data old_data : list Z) : list (option Z * option Z) :=
  match data with
  | [] => map (fun old_byte => (None, Some old_byte)) old_data
  | byte :: data =>
      match old_data with
      | [] => (Some byte, None) :: zip_longest data []
      | old_byte :: old_data => (Some byte, Some old_byte) :: zip_longest data old_data
      end
  end.

(** [byte == old_byte] for an integer [byte] and an integer or [None]. *)
Definition py_eq (byte : Z) (old_byte : option Z) : bool :=
  match old_byte with
  | Some o => byte =? o
  | None => false
  end.

Definition print (r : Report) : M (t * World) unit := world (emit (Print r)).

(** Reading a local variable. *)
Definition local {S A} (name : string) (v : option A) : M S A :=
  match v with
  | Some a => ret a
  | None => raise (UnboundLocalError name)
  end.

(** The body of the [for] loop after the overflow assertion and the
    [break] test, at index [n] with [byte] not [None]. *)
Definition loop_body (n byte : Z) (old_byte : option Z) (l : Locals)
    : M (t * World) Locals :=
  if py_eq byte old_byte then
    if negb (last_chunk_was_old l) then
      (* start of old chunk *)
      when (negb (n =? 0))
           (print (Wrote (last_chunk_start l) (n - 1) (n - last_chunk_start l))) ;;
      ret {| last_chunk_was_old := true; last_chunk_start := n; addr := addr l |}
    else ret l
  else
    l <- (if last_chunk_was_old l then
            (* end of old chunk *)
            print (Skipped (last_chunk_start l) (n - 1) (n - last_chunk_start l)) ;;
            ret {| last_chunk_was_old := false; last_chunk_start := n;
                   addr := addr l |}
          else ret l) ;;
    write_byte n byte ;;
    ret l.

(** [for addr, (byte, old_byte) in enumerate(items, start=n): ...];
    the result is the locals when the loop is left, by exhaustion or by
    [break]. *)
Fixpoint for_loop (items : list (option Z * option Z)) (n : Z) (l : Locals)
    : M (t * World) Locals :=
  match items with
  | [] => ret l
  | (byte, old_byte) :: items =>
      let l := {| last_chunk_was_old := last_chunk_was_old l;
                  last_chunk_start := last_chunk_start l;
                  addr := Some n |} in
      assert (n <? Z.pow 2 15) (Some "Address overflow, too much data"%string) ;;
      match byte with
      | None => ret l (* old_data is larger than data: break *)
      | Some byte =>
          l <- loop_body n byte old_byte l ;;
          for_loop items (n + 1) l
      end
  end.

Definition write (data old_data : list Z) : M (t * World) unit :=
  l <- for_loop (zip_longest data old_data) 0
         {| last_chunk_was_old := false; last_chunk_start := 0; addr := None |} ;;
  if negb (last_chunk_was_old l) then
    a <- local "addr" (addr l) ;;
    print (Wrote (last_chunk_start l) a (a + 1 - last_chunk_start l))
  else
    if last_chunk_start l =? 0 then
      print NothingToDo
    else
      a <- local "addr" (addr l) ;;
      print (Skipped (last_chunk_start l) a (a + 1 - last_chunk_start l)).

End BbEeProg.

(** ** Reading traces *)

Definition events (tr : list (Z * Event)) : list Event := map snd tr.

Definition chan_writes (tr : list (Z * Event)) : list (Z * Z) :=
  flat_map (fun e => match snd e with ChanWrite c v => [(c, v)] | _ => [] end) tr.

Definition byte_writes (tr : list (Z * Event)) : list (Z * Z) :=
  flat_map (fun e => match snd e with ByteWrite a b => [(a, b)] | _ => [] end) tr.

Definition reports (tr : list (Z * Event)) : list Report :=
  flat_map (fun e => match snd e with Print r => [r] | _ => [] end) tr.

(** A world at time 0 in which nothing has been sent yet; [tx] is the
    time the port takes for one telegram pair. *)
Definition world0 (tx : Z) : World :=
  {| baudrate := 9600; wire := []; clock := 0; telegram_us := tx; trace := [] |}.

(** ** Definitions used by the statements *)

(** The two telegrams of [_protocol], by name. *)
Definition low_nibble (addr value : Z) : Z :=
  Z.lor (Z.lor (Z.shiftl (Z.land value 0x0F) 4) (Z.shiftl addr 1)) 1.

Definition high_nibble (addr value : Z) : Z :=
  Z.lor (Z.lor (Z.shiftl (Z.shiftr value 4) 4) (Z.shiftl addr 1)) 1.

(** Membership in [range(256)], the test [bytes] makes. *)
Definition is_byte (x : Z) : bool := (0 <=? x) && (x <? 256).

(** The integers 0, ..., n - 1. *)
Definition upto (n : nat) : list Z := map Z.of_nat (seq 0 n).

(** The chip after [write(value)] has returned. *)
Definition latched (c : SN74LV8153.t) (value : Z) : SN74LV8153.t :=
  {| SN74LV8153._addr := SN74LV8153._addr c;
     SN74LV8153._last_value := Z.land value 0xFF |}.

(** What [write(value)] on chip [c] sends: nothing when the masked value is
    the one the chip was last given. *)
Definition sent (c : SN74LV8153.t) (value : Z) : list Z :=
  let v := Z.land value 0xFF in
  if v =? SN74LV8153._last_value c then []
  else [low_nibble (SN74LV8153._addr c) v; high_nibble (SN74LV8153._addr c) v].

(** The world after [write(value)] on chip [c] has returned. *)
Definition chip_world (c : SN74LV8153.t) (value : Z) (w : World) : World :=
  let w1 := emit (ChanWrite (SN74LV8153._addr c) value) w in
  if Z.land value 0xFF =? SN74LV8153._last_value c then w1
  else serial_write (sent c value) w1.

(** What the assertion of [SN74LV8153.__init__] guarantees. *)
Definition valid_chip (c : SN74LV8153.t) : Prop := 0 <= SN74LV8153._addr c < 8.

(** The programmer as [__enter__] wires it: chip 0 drives the low address
    byte, chip 1 the high address byte and nWE, chip 2 the data byte. *)
Definition wired (p : BbEeProg.t) : Prop :=
  SN74LV8153._addr (BbEeProg._addr_lo p) = 0 /\
  SN74LV8153._addr (BbEeProg._addr_hi p) = 1 /\
  SN74LV8153._addr (BbEeProg._data p) = 2.

(** High address byte with nWE released. *)
Definition hi_idle (addr : Z) : Z :=
  Z.lor (Z.shiftr addr 8) BbEeProg.ADDR_HI_WRITE_DISABLE_BIT.

(** The world after the data and address lines are set up. *)
Definition settled (addr byte : Z) (p : BbEeProg.t) (w : World) : World :=
  chip_world (BbEeProg._addr_hi p) (hi_idle addr)
    (chip_world (BbEeProg._addr_lo p) (Z.land addr 0xFF)
       (chip_world (BbEeProg._data p) byte
          (emit (ByteWrite addr byte) w))).

(** How long [write_byte] has to wait in world [w]. *)
Definition delay_us (p : BbEeProg.t) (w : World) : Z :=
  BbEeProg._dt_last_write p + 15000 - clock w.

(** The world after the wait, if there is one. *)
Definition waited (p : BbEeProg.t) (w : World) : World :=
  if 0 <? delay_us p w then time_sleep (delay_us p w) w else w.

(** The world after nWE went low and high again. *)
Definition strobed (addr : Z) (p : BbEeProg.t) (w : World) : World :=
  let hi := latched (BbEeProg._addr_hi p) (hi_idle addr) in
  chip_world (latched hi (Z.shiftr addr 8)) (hi_idle addr)
    (chip_world hi (Z.shiftr addr 8) w).

(** The world and the programmer after [write_byte(addr, byte)]. *)
Definition byte_world (addr byte : Z) (p : BbEeProg.t) (w : World) : World :=
  strobed addr p (waited p (settled addr byte p w)).

Definition byte_prog (addr byte : Z) (p : BbEeProg.t) (w : World) : BbEeProg.t :=
  {| BbEeProg._addr_lo := latched (BbEeProg._addr_lo p) (Z.land addr 0xFF);
     BbEeProg._addr_hi :=
       latched (latched (latched (BbEeProg._addr_hi p) (hi_idle addr))
                        (Z.shiftr addr 8)) (hi_idle addr);
     BbEeProg._data := latched (BbEeProg._data p) byte;
     BbEeProg._dt_last_write := clock (byte_world addr byte p w) |}.

(** The locals of [write] before the loop. *)
Definition locals0 : BbEeProg.Locals :=
  {| BbEeProg.last_chunk_was_old := false; BbEeProg.last_chunk_start := 0;
     BbEeProg.addr := None |}.

(** The (address, byte) pairs of the items, numbered from [n], whose byte
    differs from the old byte, up to the first item without a byte. *)
Fixpoint changed (items : list (option Z * option Z)) (n : Z) : list (Z * Z) :=
  match items with
  | [] => []
  | (None, _) :: _ => []
  | (Some byte, old_byte) :: items =>
      (if BbEeProg.py_eq byte old_byte then [] else [(n, byte)])
      ++ changed items (n + 1)
  end.

(** [enumerate(data, start=n)] *)
Fixpoint enumerate (data : list Z) (n : Z) : list (Z * Z) :=
  match data with
  | [] => []
  | byte :: data => (n, byte) :: enumerate data (n + 1)
  end.

(** Splits a conjunction, closing [wired] conjuncts by assumption. *)
Ltac conj :=
  repeat match goal with
         | |- wired _ /\ _ => split; [assumption|]
         | |- _ /\ _ => split
         end.

(** The programmer and the world after [__enter__] on [world0 833]: 833
    microseconds is what two 8N1 frames take at 24000 baud. *)
Definition session0 : BbEeProg.t * World :=
  ({| BbEeProg._addr_lo := {| SN74LV8153._addr := 0; SN74LV8153._last_value := -1 |};
      BbEeProg._addr_hi := {| SN74LV8153._addr := 1; SN74LV8153._last_value := 128 |};
      BbEeProg._data := {| SN74LV8153._addr := 2; SN74LV8153._last_value := -1 |};
      BbEeProg._dt_last_write := 833 |},
   {| baudrate := 24000; wire := [3; 131]; clock := 833; telegram_us := 833;
      trace := [(0, ChanWrite 1 128)] |}).

(** The session after [write_byte(0, 0x11)]. *)
Definition session1 : BbEeProg.t * World :=
  Eval vm_compute in snd (BbEeProg.write_byte 0 0x11 session0).

(** A chip that was last given the value 5. *)
Definition holding5 : SN74LV8153.t :=
  {| SN74LV8153._addr := 0; SN74LV8153._last_value := 5 |}.

(** The size of the address space, as a number of loop items. *)
Definition ADDRESS_SPACE : nat := Z.to_nat (Z.pow 2 15).

(** ** Definitions for the further properties *)

(** Reading a telegram back, as the protocol layout comment of
    [SN74LV8153] lays it out: bit 0 is the protocol start bit, bits 1-3
    the chip address, bits 4-7 a data nibble. *)
Definition telegram_start (t : Z) : bool := Z.testbit t 0.

Definition telegram_chip (t : Z) : Z := Z.land (Z.shiftr t 1) 7.

Definition telegram_nibble (t : Z) : Z := Z.shiftr t 4.

(** The kind of a reported run: [Some true] for a skipped run, [Some false]
    for a written run. *)
Definition run_kind (r : Report) : option bool :=
  match r with
  | Wrote _ _ _ => Some false
  | Skipped _ _ _ => Some true
  | NothingToDo => None
  end.

(** The kind of the last run of [rs], [prev] if there is none. *)
Fixpoint last_kind (prev : option bool) (rs : list Report) : option bool :=
  match rs with
  | [] => prev
  | r :: rs => last_kind (run_kind r) rs
  end.

(** [tiles from prev rs to]: the reports [rs] are runs that cover the
    addresses [from, to) in order and without gap or overlap; every run is
    non-empty, its count is its length, and it is of the other kind than
    the run before it ([prev] is the kind of the run before [from]). *)
Fixpoint tiles (from : Z) (prev : option bool) (rs : list Report) (to : Z) : Prop :=
  match rs with
  | [] => from = to
  | Wrote first last count :: rs =>
      first = from /\ from <= last /\ count = last - first + 1 /\
      prev <> Some false /\ tiles (last + 1) (Some false) rs to
  | Skipped first last count :: rs =>
      first = from /\ from <= last /\ count = last - first + 1 /\
      prev <> Some true /\ tiles (last + 1) (Some true) rs to
  | NothingToDo :: _ => False
  end.

(** The sum of the byte counts of the written runs. *)
Fixpoint wrote_total (rs : list Report) : Z :=
  match rs with
  | [] => 0
  | Wrote _ _ count :: rs => count + wrote_total rs
  | _ :: rs => wrote_total rs
  end.

(** What the loop of [write] keeps true at index [n], for the reports [rs]
    printed and the [k] byte writes made so far: the reports tile the
    addresses below the start of the current chunk, the current chunk is
    of the other kind than the last report and is not empty (except before
    the first item), and the written runs, with the current chunk if it is
    a written one, count the byte writes. *)
Definition loop_inv (n : Z) (l : BbEeProg.Locals) (rs : list Report) (k : Z) : Prop :=
  tiles 0 None rs (BbEeProg.last_chunk_start l) /\
  last_kind None rs <> Some (BbEeProg.last_chunk_was_old l) /\
  (BbEeProg.last_chunk_start l < n \/
   (n = 0 /\ BbEeProg.last_chunk_start l = 0 /\
    BbEeProg.last_chunk_was_old l = false /\ rs = [])) /\
  wrote_total rs
  + (if BbEeProg.last_chunk_was_old l then 0 else n - BbEeProg.last_chunk_start l)
  = k.

(** [ascending lo l]: the addresses of the pairs of [l] are strictly
    increasing and not below [lo]. *)
Fixpoint ascending (lo : Z) (l : list (Z * Z)) : Prop :=
  match l with
  | [] => True
  | (a, _) :: l => lo <= a /\ ascending (a + 1) l
  end.

(** The run of [write] on data [1, 2, 3, 4] against old data
    [1, 9, 3, 4], from [session0]. *)
Definition diff_run : Result unit * (BbEeProg.t * World) :=
  Eval vm_compute in BbEeProg.write [1; 2; 3; 4] [1; 9; 3; 4] session0.

(** The telegram pair of value [snd av] for chip [fst av]. *)
Definition telegrams (av : Z * Z) : list Z :=
  [low_nibble (fst av) (snd av); high_nibble (fst av) (snd av)].

(** The bytes of the telegram pairs of [pairs], one pair after the other. *)
Definition telegram_stream (pairs : list (Z * Z)) : list Z :=
  flat_map telegrams pairs.

(** ** Flashing files *)

(** [BbEeProg._file_read_bytes]: the generator that reads the file one
    byte at a time ([f.read(1)]) and yields each byte as an integer
    ([data[0]]) until the read returns [b""].  A file is given by its
    content; a file that cannot be opened is outside this model. *)
Fixpoint _file_read_bytes (f : list Byte.byte) : list Z :=
  match f with
  | [] => []
  | data :: f => Z.of_N (Byte.to_N data) :: _file_read_bytes f
  end.

(** [BbEeProg.write_file] *)
Definition write_file (file : list Byte.byte) : M (BbEeProg.t * World) unit :=
  BbEeProg.write (_file_read_bytes file) [].

(** [BbEeProg.write_file_diff] *)
Definition write_file_diff (file diff_file : list Byte.byte)
    : M (BbEeProg.t * World) unit :=
  BbEeProg.write (_file_read_bytes file) (_file_read_bytes diff_file).

(** * Lemmas *)

(** ** Runs on concrete inputs *)

(** [test_protocol] of [tests/test_all.py]. *)
Example test_protocol :
  SN74LV8153._protocol 5 0xAB = Ok [0xBB; 0xAB].
Proof. reflexivity. Qed.

(** Data [1, 2, 3, 4] against old data [1, 9, 3, 4]: one byte is written,
    at address 1, between two skipped runs. *)
Example write_diff_1234 :
  let r := BbEeProg.write [1; 2; 3; 4] [1; 9; 3; 4] session0 in
  fst r = Ok tt /\
  byte_writes (trace (snd (snd r))) = [(1, 2)] /\
  reports (trace (snd (snd r))) = [Skipped 0 0 1; Wrote 1 1 1; Skipped 2 3 2].
Proof. cbv zeta. repeat split; vm_compute; reflexivity. Qed.

(** ** The chip: encoding and suppression *)

Lemma in_upto (n : nat) (z : Z) : 0 <= z < Z.of_nat n -> In z (upto n).
Proof.
  intros H. unfold upto. apply in_map_iff.
  exists (Z.to_nat z). split; [lia|]. apply in_seq. lia.
Qed.

Lemma telegrams_are_bytes (addr value : Z) :
  0 <= addr < 8 -> 0 <= value < 256 ->
  is_byte (low_nibble addr value) && is_byte (high_nibble addr value) = true.
Proof.
  intros Ha Hv.
  assert (H : forallb (fun a => forallb (fun v =>
                is_byte (low_nibble a v) && is_byte (high_nibble a v))
              (upto 256)) (upto 8) = true) by (vm_compute; reflexivity).
  rewrite forallb_forall in H.
  specialize (H addr (in_upto 8 addr Ha)).
  rewrite forallb_forall in H.
  exact (H value (in_upto 256 value Hv)).
Qed.

Lemma protocol_ok (addr value : Z) :
  0 <= addr < 8 -> 0 <= value < 256 ->
  SN74LV8153._protocol addr value
  = Ok [low_nibble addr value; high_nibble addr value].
Proof.
  intros Ha Hv. pose proof (telegrams_are_bytes addr value Ha Hv) as H.
  apply andb_true_iff in H. destruct H as [Hl Hh].
  unfold SN74LV8153._protocol, SN74LV8153.bytes.
  fold (low_nibble addr value). fold (high_nibble addr value).
  cbn [forallb]. fold (is_byte (low_nibble addr value)).
  fold (is_byte (high_nibble addr value)).
  rewrite Hl, Hh. reflexivity.
Qed.

Lemma mask_is_byte (value : Z) : 0 <= Z.land value 0xFF < 256.
Proof.
  change 0xFF with (Z.ones 8). rewrite Z.land_ones by lia.
  apply Z.mod_pos_bound. reflexivity.
Qed.

Lemma mask_of_byte (value : Z) : 0 <= value < 256 -> Z.land value 0xFF = value.
Proof.
  intros H. change 0xFF with (Z.ones 8). rewrite Z.land_ones by lia.
  apply Z.mod_small. exact H.
Qed.

Lemma chip_write_ok (c : SN74LV8153.t) (value : Z) (w : World) :
  valid_chip c ->
  SN74LV8153.write value (c, w) = (Ok tt, (latched c value, chip_world c value w)).
Proof.
  intros Hc. unfold SN74LV8153.write, chip_world, sent, latched, bind, self, world, ret.
  cbn [fst snd].
  destruct (Z.land value 0xFF =? SN74LV8153._last_value c) eqn:E.
  - apply Z.eqb_eq in E. destruct c as [a lv]; cbn in *. subst lv. reflexivity.
  - unfold lift. rewrite (protocol_ok _ _ Hc (mask_is_byte value)).
    reflexivity.
Qed.

Lemma chip_world_trace c value w :
  trace (chip_world c value w)
  = trace w ++ [(clock w, ChanWrite (SN74LV8153._addr c) value)].
Proof. unfold chip_world. destruct (_ =? _); reflexivity. Qed.

Lemma chip_world_wire c value w :
  wire (chip_world c value w) = wire w ++ sent c value.
Proof.
  unfold chip_world, sent. destruct (_ =? _); cbn; [|reflexivity].
  symmetry. apply app_nil_r.
Qed.

Lemma sent_again c value : sent (latched c value) value = [].
Proof. unfold sent, latched. cbn. rewrite Z.eqb_refl. reflexivity. Qed.

(** ** The timed byte write *)

Lemma wired_valid (p : BbEeProg.t) :
  wired p ->
  valid_chip (BbEeProg._addr_lo p) /\ valid_chip (BbEeProg._addr_hi p) /\
  valid_chip (BbEeProg._data p).
Proof. unfold wired, valid_chip. intros (-> & -> & ->). lia. Qed.

Lemma write_byte_ok (addr byte : Z) (p : BbEeProg.t) (w : World) :
  wired p -> addr <= 0x7FFF ->
  BbEeProg.write_byte addr byte (p, w)
  = (Ok tt, (byte_prog addr byte p w, byte_world addr byte p w)).
Proof.
  intros Hp Ha. destruct (wired_valid p Hp) as (Hlo & Hhi & Hdat).
  unfold BbEeProg.write_byte, assert.
  rewrite (proj2 (Z.leb_le addr 0x7FFF) Ha).
  unfold bind at 1. unfold ret at 1.
  unfold bind at 1. unfold world at 1. cbn [fst snd].
  unfold bind at 1. unfold BbEeProg.data at 1, BbEeProg.on at 1. cbn [fst snd].
  rewrite (chip_write_ok _ _ _ Hdat). cbn [fst snd].
  unfold bind at 1. unfold BbEeProg.addr_lo at 1, BbEeProg.on at 1. cbn [fst snd].
  cbn [BbEeProg.set_data BbEeProg._addr_lo BbEeProg._addr_hi BbEeProg._data].
  rewrite (chip_write_ok _ _ _ Hlo). cbn [fst snd].
  unfold bind at 1. unfold BbEeProg.addr_hi at 1, BbEeProg.on at 1. cbn [fst snd].
  cbn [BbEeProg.set_addr_lo BbEeProg._addr_lo BbEeProg._addr_hi BbEeProg._data].
  fold (hi_idle addr).
  rewrite (chip_write_ok _ _ _ Hhi). cbn [fst snd].
  fold (settled addr byte p w).
  unfold bind at 1. unfold self at 1. cbn [fst snd].
  unfold bind at 1. unfold now at 1. cbn [fst snd].
  cbn [BbEeProg.set_addr_hi BbEeProg._dt_last_write
       BbEeProg._addr_lo BbEeProg._addr_hi BbEeProg._data].
  change (BbEeProg._dt_last_write p
          + BbEeProg.timedelta_ms BbEeProg.WRITE_CYCLE_MS
          - clock (settled addr byte p w))
    with (delay_us p (settled addr byte p w)).
  assert (Hw : forall S0 (s : S0),
             BbEeProg.when (0 <? delay_us p (settled addr byte p w))
               (world (time_sleep (delay_us p (settled addr byte p w))))
               (s, settled addr byte p w)
             = (Ok tt, (s, waited p (settled addr byte p w)))).
  { intros S0 s. unfold BbEeProg.when, waited.
    destruct (0 <? delay_us p (settled addr byte p w)); reflexivity. }
  unfold bind at 1. rewrite Hw.
  unfold bind at 1. unfold BbEeProg.addr_hi at 1, BbEeProg.on at 1. cbn [fst snd].
  cbn [BbEeProg._addr_hi].
  rewrite (chip_write_ok (latched (BbEeProg._addr_hi p) (hi_idle addr))) by exact Hhi.
  cbn [fst snd].
  unfold bind at 1. unfold BbEeProg.addr_hi at 1, BbEeProg.on at 1. cbn [fst snd].
  cbn [BbEeProg.set_addr_hi BbEeProg._addr_hi BbEeProg._addr_lo BbEeProg._data
       BbEeProg._dt_last_write].
  rewrite (chip_write_ok (latched (latched (BbEeProg._addr_hi p) (hi_idle addr))
                                  (Z.shiftr addr 8))) by exact Hhi.
  cbn [fst snd].
  unfold bind, now, self, set_self. cbn [fst snd].
  reflexivity.
Qed.

Lemma byte_prog_wired addr byte p w : wired p -> wired (byte_prog addr byte p w).
Proof. unfold wired. cbn. tauto. Qed.

Lemma waited_trace p w :
  trace (waited p w)
  = trace w ++ (if 0 <? delay_us p w then [(clock w, Sleep (delay_us p w))] else []).
Proof.
  unfold waited. destruct (0 <? delay_us p w); cbn; [reflexivity|].
  symmetry. apply app_nil_r.
Qed.

Lemma waited_clock p w :
  BbEeProg._dt_last_write p + 15000 <= clock (waited p w).
Proof.
  unfold waited. destruct (0 <? delay_us p w) eqn:E; unfold delay_us in *; cbn.
  - lia.
  - apply Z.ltb_ge in E. lia.
Qed.

(** The events of one byte write, with the clock of each. *)
Lemma byte_world_trace addr byte p w :
  wired p ->
  exists t_lo t_hi t_now t_release,
    t_now = clock (settled addr byte p w) /\
    trace (byte_world addr byte p w)
    = trace w
      ++ [(clock w, ByteWrite addr byte); (clock w, ChanWrite 2 byte);
          (t_lo, ChanWrite 0 (Z.land addr 0xFF));
          (t_hi, ChanWrite 1 (hi_idle addr))]
      ++ (if 0 <? delay_us p (settled addr byte p w)
          then [(t_now, Sleep (delay_us p (settled addr byte p w)))] else [])
      ++ [(clock (waited p (settled addr byte p w)), ChanWrite 1 (Z.shiftr addr 8));
          (t_release, ChanWrite 1 (hi_idle addr))].
Proof.
  intros (Hlo & Hhi & Hdat).
  unfold byte_world, strobed, settled.
  do 4 eexists. split; [reflexivity|].
  rewrite !chip_world_trace, waited_trace, !chip_world_trace.
  cbn [latched SN74LV8153._addr emit trace clock].
  rewrite Hlo, Hhi, Hdat.
  rewrite <- !app_assoc. cbn [app]. reflexivity.
Qed.

Lemma byte_writes_app tr1 tr2 :
  byte_writes (tr1 ++ tr2) = byte_writes tr1 ++ byte_writes tr2.
Proof. apply flat_map_app. Qed.

Lemma reports_app tr1 tr2 : reports (tr1 ++ tr2) = reports tr1 ++ reports tr2.
Proof. apply flat_map_app. Qed.

(** One byte write, seen from the driver: it adds one [ByteWrite] and no
    report to the trace. *)
Lemma byte_world_new addr byte p w :
  wired p ->
  exists new,
    trace (byte_world addr byte p w) = trace w ++ new /\
    byte_writes new = [(addr, byte)] /\ reports new = [].
Proof.
  intros Hp. destruct (byte_world_trace addr byte p w Hp)
    as (t_lo & t_hi & t_now & t_release & _ & E).
  eexists. split; [exact E|].
  destruct (0 <? delay_us p (settled addr byte p w)); split; reflexivity.
Qed.

(** ** The diff driver *)

Lemma print_run r (p : BbEeProg.t) w :
  BbEeProg.print r (p, w) = (Ok tt, (p, emit (Print r) w)).
Proof. reflexivity. Qed.

Lemma loop_body_ok n byte old_byte l p w :
  wired p -> n <= 0x7FFF ->
  exists l' p' w' new,
    BbEeProg.loop_body n byte old_byte l (p, w) = (Ok l', (p', w')) /\
    wired p' /\
    trace w' = trace w ++ new /\
    byte_writes new = (if BbEeProg.py_eq byte old_byte then [] else [(n, byte)]) /\
    BbEeProg.addr l' = BbEeProg.addr l.
Proof.
  intros Hp Hn. unfold BbEeProg.loop_body.
  destruct (BbEeProg.py_eq byte old_byte).
  - destruct (BbEeProg.last_chunk_was_old l); cbn [negb].
    + exists l, p, w, []. rewrite app_nil_r. conj; try reflexivity; auto.
    + unfold BbEeProg.when. destruct (n =? 0); cbn [negb].
      * eexists _, p, w, []. rewrite app_nil_r. conj; try reflexivity; auto.
      * eexists _, p, _, _. unfold bind. rewrite print_run. cbn [ret].
        conj; try reflexivity; auto.
  - destruct (BbEeProg.last_chunk_was_old l).
    + unfold bind at 1. unfold bind at 1. rewrite print_run. unfold ret at 1.
      unfold bind at 1. rewrite (write_byte_ok _ _ _ _ Hp Hn). unfold ret.
      destruct (byte_world_new n byte p (emit (Print (Skipped (BbEeProg.last_chunk_start l) (n - 1) (n - BbEeProg.last_chunk_start l))) w) Hp)
        as (new & E & Hb & _).
      eexists _, _, _, _. split; [reflexivity|].
      split; [apply byte_prog_wired; exact Hp|].
      split; [rewrite E; cbn [emit trace]; rewrite <- app_assoc; reflexivity|].
      split; [|reflexivity].
      rewrite byte_writes_app, Hb. reflexivity.
    + unfold bind at 1. unfold ret at 1.
      unfold bind at 1. rewrite (write_byte_ok _ _ _ _ Hp Hn). unfold ret.
      destruct (byte_world_new n byte p w Hp) as (new & E & Hb & _).
      eexists _, _, _, new. split; [reflexivity|].
      split; [apply byte_prog_wired; exact Hp|].
      conj; try reflexivity; auto.
Qed.

(** Inside the address space the loop runs to its end (or to the [break])
    and calls [write_byte] for exactly the changed bytes, in order. *)
Lemma for_loop_ok items : forall n l p w,
  wired p -> n + Z.of_nat (length items) <= 32768 ->
  exists l' p' w' new,
    BbEeProg.for_loop items n l (p, w) = (Ok l', (p', w')) /\
    wired p' /\
    trace w' = trace w ++ new /\
    byte_writes new = changed items n /\
    (items <> [] -> BbEeProg.addr l' <> None).
Proof.
  induction items as [|[byte old_byte] items IH]; intros n l p w Hp Hn.
  - exists l, p, w, []. rewrite app_nil_r. conj; try reflexivity; auto.
  - cbn [length] in Hn. cbn [BbEeProg.for_loop].
    unfold bind at 1, assert.
    assert (Hlt : (n <? 2 ^ 15) = true) by (apply Z.ltb_lt; lia).
    rewrite Hlt. unfold ret at 1.
    destruct byte as [byte|].
    + set (l1 := {| BbEeProg.last_chunk_was_old := BbEeProg.last_chunk_was_old l;
                    BbEeProg.last_chunk_start := BbEeProg.last_chunk_start l;
                    BbEeProg.addr := Some n |}).
      destruct (loop_body_ok n byte old_byte l1 p w Hp ltac:(lia))
        as (l2 & p2 & w2 & new2 & E2 & Hp2 & T2 & B2 & A2).
      unfold bind. rewrite E2.
      destruct (IH (n + 1) l2 p2 w2 Hp2 ltac:(lia))
        as (l3 & p3 & w3 & new3 & E3 & Hp3 & T3 & B3 & A3).
      fold (@bind (BbEeProg.t * World) BbEeProg.Locals BbEeProg.Locals).
      exists l3, p3, w3, (new2 ++ new3).
      split; [exact E3|]. split; [exact Hp3|].
      split; [rewrite T3, T2, app_assoc; reflexivity|].
      split; [rewrite byte_writes_app, B2, B3; reflexivity|].
      intros _. destruct items as [|i items].
      * cbn in E3. inversion E3; subst. rewrite A2. discriminate.
      * apply A3. discriminate.
    + eexists _, p, w, []. rewrite app_nil_r.
      split; [reflexivity|]. conj; try reflexivity; auto. discriminate.
Qed.

Lemma bind_assoc {S A B C} (m : M S A) (f : A -> M S B) (g : B -> M S C) s :
  bind (bind m f) g s = bind m (fun a => bind (f a) g) s.
Proof. unfold bind. destruct (m s) as [[a|e] s']; reflexivity. Qed.

Lemma bind_ext {S A B} (m : M S A) (k1 k2 : A -> M S B) s :
  (forall a s', k1 a s' = k2 a s') -> bind m k1 s = bind m k2 s.
Proof. intros H. unfold bind. destruct (m s) as [[a|e] s']; auto. Qed.

(** A loop over [xs ++ ys] is the loop over [xs] followed by the loop over
    [ys], as long as no item of [xs] makes the loop [break]. *)
Lemma for_loop_app xs ys : forall n l st,
  Forall (fun item : option Z * option Z => fst item <> None) xs ->
  BbEeProg.for_loop (xs ++ ys) n l st
  = (l' <- BbEeProg.for_loop xs n l ;;
     BbEeProg.for_loop ys (n + Z.of_nat (length xs)) l') st.
Proof.
  induction xs as [|[byte old_byte] xs IH]; intros n l st Hxs.
  - cbn [app length BbEeProg.for_loop]. unfold bind, ret.
    rewrite Z.add_0_r. reflexivity.
  - inversion Hxs as [|? ? Hb Hxs']; subst. cbn [fst] in Hb.
    destruct byte as [byte|]; [|congruence].
    cbn [app BbEeProg.for_loop]. rewrite bind_assoc.
    apply bind_ext. intros _ st1. rewrite bind_assoc.
    apply bind_ext. intros l1 st2.
    rewrite IH by exact Hxs'.
    replace (n + 1 + Z.of_nat (length xs))
      with (n + Z.of_nat (length ((Some byte, old_byte) :: xs)))
      by (cbn [length]; lia).
    reflexivity.
Qed.

Lemma zip_longest_split (k : nat) : forall data old_data,
  (k <= length data)%nat ->
  BbEeProg.zip_longest data old_data
  = BbEeProg.zip_longest (firstn k data) (firstn k old_data)
    ++ BbEeProg.zip_longest (skipn k data) (skipn k old_data).
Proof.
  induction k as [|k IH]; intros data old_data Hk.
  - destruct old_data; reflexivity.
  - destruct data as [|b data]; [cbn in Hk; lia|].
    cbn [length] in Hk.
    destruct old_data as [|o old_data]; cbn [firstn skipn BbEeProg.zip_longest app].
    + rewrite (IH data []) at 1 by lia.
      rewrite firstn_nil, skipn_nil. reflexivity.
    + rewrite (IH data old_data) at 1 by lia. reflexivity.
Qed.

Lemma zip_longest_bytes : forall data old_data,
  (length old_data <= length data)%nat ->
  Forall (fun item : option Z * option Z => fst item <> None)
         (BbEeProg.zip_longest data old_data) /\
  length (BbEeProg.zip_longest data old_data) = length data.
Proof.
  induction data as [|b data IH]; intros old_data H.
  - destruct old_data; [|cbn in H; lia]. split; [constructor|reflexivity].
  - destruct old_data as [|o old_data]; cbn [BbEeProg.zip_longest length];
      cbn [length] in H.
    + destruct (IH [] ltac:(cbn; lia)) as [F L].
      split; [constructor; [discriminate|exact F]|rewrite L; reflexivity].
    + destruct (IH old_data ltac:(lia)) as [F L].
      split; [constructor; [discriminate|exact F]|rewrite L; reflexivity].
Qed.

Lemma changed_bound items : forall n,
  0 <= n ->
  Forall (fun ab : Z * Z => 0 <= fst ab < n + Z.of_nat (length items))
         (changed items n).
Proof.
  induction items as [|[[byte|] old_byte] items IH]; intros n Hn;
    cbn [changed length]; try constructor.
  apply Forall_app. split.
  - destruct (BbEeProg.py_eq byte old_byte); constructor; [|constructor].
    cbn [fst]. lia.
  - eapply Forall_impl; [|apply (IH (n + 1)); lia].
    intros ab. cbn beta. lia.
Qed.

(** Past the end of the old data every byte counts as changed. *)
Lemma changed_tail data : forall old_data n (a : nat) b,
  (length old_data <= a)%nat -> nth_error data a = Some b ->
  In (n + Z.of_nat a, b) (changed (BbEeProg.zip_longest data old_data) n).
Proof.
  induction data as [|byte data IH]; intros old_data n a b Ha Hb.
  - destruct a; discriminate.
  - destruct old_data as [|o old_data]; cbn [BbEeProg.zip_longest changed].
    + destruct a as [|a]; cbn [nth_error] in Hb.
      * inversion Hb; subst. cbn [BbEeProg.py_eq app].
        left. f_equal. lia.
      * apply in_or_app. right.
        replace (n + Z.of_nat (S a)) with (n + 1 + Z.of_nat a) by lia.
        apply IH; [cbn; lia|exact Hb].
    + destruct a as [|a]; [cbn in Ha; lia|]. cbn [nth_error] in Hb.
      cbn [length] in Ha. apply in_or_app. right.
      replace (n + Z.of_nat (S a)) with (n + 1 + Z.of_nat a) by lia.
      apply IH; [lia|exact Hb].
Qed.

(** Without old data nothing is ever skipped: the loop writes every byte
    and prints nothing. *)
Lemma for_loop_no_baseline data : forall n l p w,
  wired p -> n + Z.of_nat (length data) <= 32768 ->
  BbEeProg.last_chunk_was_old l = false ->
  exists l' p' w' new,
    BbEeProg.for_loop (BbEeProg.zip_longest data []) n l (p, w)
    = (Ok l', (p', w')) /\
    wired p' /\
    trace w' = trace w ++ new /\
    byte_writes new = enumerate data n /\
    reports new = [] /\
    BbEeProg.last_chunk_was_old l' = false /\
    BbEeProg.last_chunk_start l' = BbEeProg.last_chunk_start l /\
    BbEeProg.addr l'
    = match data with
      | [] => BbEeProg.addr l
      | _ => Some (n + Z.of_nat (length data) - 1)
      end.
Proof.
  induction data as [|byte data IH]; intros n l p w Hp Hn Hl.
  - exists l, p, w, []. rewrite app_nil_r. conj; try reflexivity; auto.
  - cbn [length] in Hn. cbn [BbEeProg.zip_longest BbEeProg.for_loop].
    unfold bind at 1, assert.
    assert (Hlt : (n <? 2 ^ 15) = true) by (apply Z.ltb_lt; lia).
    rewrite Hlt. unfold ret at 1.
    unfold BbEeProg.loop_body. cbn [BbEeProg.py_eq BbEeProg.last_chunk_was_old].
    rewrite Hl. rewrite !bind_assoc. unfold bind at 1. unfold ret at 1.
    rewrite bind_assoc. unfold bind at 1.
    assert (Hn' : n <= 0x7FFF) by lia.
    rewrite (write_byte_ok _ _ _ _ Hp Hn').
    unfold bind at 1. unfold ret at 1.
    destruct (byte_world_new n byte p w Hp) as (new1 & T1 & B1 & R1).
    destruct (IH (n + 1)
                {| BbEeProg.last_chunk_was_old := false;
                   BbEeProg.last_chunk_start := BbEeProg.last_chunk_start l;
                   BbEeProg.addr := Some n |}
                (byte_prog n byte p w) (byte_world n byte p w)
                (byte_prog_wired _ _ _ _ Hp) ltac:(lia) eq_refl)
      as (l' & p' & w' & new & E & Hp' & T & B & R & Ho & Hs & Ha).
    exists l', p', w', (new1 ++ new). conj.
    + exact E.
    + rewrite T, T1, app_assoc. reflexivity.
    + rewrite byte_writes_app, B1, B. reflexivity.
    + rewrite reports_app, R1, R. reflexivity.
    + exact Ho.
    + exact Hs.
    + rewrite Ha. destruct data; cbn [BbEeProg.addr length]; f_equal; lia.
Qed.

(** While the bytes equal the old bytes inside a skipped run, the loop
    changes nothing but the loop variable. *)
Lemma for_loop_unchanged data rest : forall n l st,
  Z.of_nat (length data) + n < 32768 \/
  (Z.of_nat (length data) + n = 32768 /\ rest = []) ->
  BbEeProg.last_chunk_was_old l = true ->
  exists l',
    BbEeProg.for_loop (BbEeProg.zip_longest data (data ++ rest)) n l st
    = (Ok l', st) /\
    BbEeProg.last_chunk_was_old l' = true /\
    BbEeProg.last_chunk_start l' = BbEeProg.last_chunk_start l.
Proof.
  induction data as [|byte data IH]; intros n l st Hn Hl.
  - cbn [BbEeProg.zip_longest app length] in *.
    destruct rest as [|o rest].
    + exists l. conj; try reflexivity; auto.
    + destruct Hn as [Hn|[_ Hn]]; [|discriminate].
      cbn [map BbEeProg.for_loop]. unfold bind, assert.
      assert (Hlt : (n <? 2 ^ 15) = true) by (apply Z.ltb_lt; lia).
      rewrite Hlt. cbn [ret].
      eexists. conj; [reflexivity| |]; cbn; auto.
  - cbn [length] in Hn.
    cbn [BbEeProg.zip_longest app BbEeProg.for_loop].
    unfold bind at 1, assert.
    assert (Hlt : (n <? 2 ^ 15) = true) by (apply Z.ltb_lt; lia).
    rewrite Hlt. unfold ret at 1.
    unfold BbEeProg.loop_body. cbn [BbEeProg.py_eq BbEeProg.last_chunk_was_old].
    rewrite Z.eqb_refl, Hl. cbn [negb]. unfold bind at 1. unfold ret at 1.
    assert (Hn' : Z.of_nat (length data) + (n + 1) < 32768 \/
                  (Z.of_nat (length data) + (n + 1) = 32768 /\ rest = []))
      by (destruct Hn as [Hn|[Hn Hr]]; [left; lia|right; split; [lia|exact Hr]]).
    destruct (IH (n + 1)
                {| BbEeProg.last_chunk_was_old := true;
                   BbEeProg.last_chunk_start := BbEeProg.last_chunk_start l;
                   BbEeProg.addr := Some n |} st Hn' eq_refl)
      as (l' & E & Ho & Hs).
    exists l'. conj; [exact E|exact Ho|exact Hs].
Qed.

(** ** The session *)

Lemma enter_session0 :
  BbEeProg.__enter__ (world0 833) = (Ok (fst session0), snd session0).
Proof. reflexivity. Qed.

Lemma session0_wired : wired (fst session0).
Proof. repeat split. Qed.

Lemma enter_ok (w : World) :
  exists p w',
    BbEeProg.__enter__ w = (Ok p, w') /\ wired p /\
    SN74LV8153._last_value (BbEeProg._addr_hi p) = 128 /\
    BbEeProg._dt_last_write p = clock w'.
Proof.
  unfold BbEeProg.__enter__. cbn.
  eexists _, _. split; [reflexivity|]. repeat split.
Qed.

Lemma bind_Ok_inv {S A B} (m : M S A) (k : A -> M S B) s b s' :
  bind m k s = (Ok b, s') ->
  exists a s1, m s = (Ok a, s1) /\ k a s1 = (Ok b, s').
Proof.
  unfold bind. destruct (m s) as [[a|e] s1]; intros H; [|discriminate].
  exists a, s1. split; [reflexivity|exact H].
Qed.

(** Whatever the chip, a [write] that returns leaves the masked value as
    the chip's last value. *)
Lemma chip_write_latches value c w u c' w' :
  SN74LV8153.write value (c, w) = (Ok u, (c', w')) ->
  SN74LV8153._last_value c' = Z.land value 0xFF.
Proof.
  unfold SN74LV8153.write, bind, self, world, ret, lift, set_self. cbn [fst snd].
  destruct (Z.land value 0xFF =? SN74LV8153._last_value c) eqn:E.
  - intros H. inversion H; subst. apply Z.eqb_eq in E. symmetry. exact E.
  - destruct (SN74LV8153._protocol (SN74LV8153._addr c) (Z.land value 0xFF));
      intros H; inversion H; subst. reflexivity.
Qed.

Lemma bit7_released (addr : Z) :
  Z.testbit (Z.land (hi_idle addr) 0xFF) 7 = true.
Proof.
  unfold hi_idle. rewrite Z.land_spec, Z.lor_spec.
  change (Z.testbit BbEeProg.ADDR_HI_WRITE_DISABLE_BIT 7) with true.
  change (Z.testbit 0xFF 7) with true.
  rewrite orb_true_r. reflexivity.
Qed.

(** * The claims *)

(** C1.  For every channel in [0,8) and every value in [0,256),
    [_protocol] returns exactly the two bytes
    [((value & 0x0F) << 4) | (channel << 1) | 1] and
    [((value >> 4) << 4) | (channel << 1) | 1], the low-nibble telegram
    first; in particular [_protocol(5, 0xAB)] is [(0xBB, 0xAB)]. *)
Theorem C1_protocol_encoding :
  (forall channel value : Z,
      0 <= channel < 8 -> 0 <= value < 256 ->
      SN74LV8153._protocol channel value
      = Ok [Z.lor (Z.lor (Z.shiftl (Z.land value 0x0F) 4) (Z.shiftl channel 1)) 1;
            Z.lor (Z.lor (Z.shiftl (Z.shiftr value 4) 4) (Z.shiftl channel 1)) 1]) /\
  SN74LV8153._protocol 5 0xAB = Ok [0xBB; 0xAB].
Proof.
  split; [|reflexivity].
  intros channel value Hc Hv. exact (protocol_ok channel value Hc Hv).
Qed.

Lemma C1_witness :
  (0 <= 7 < 8 /\ 0 <= 0x5A < 256) /\
  SN74LV8153._protocol 7 0x5A = Ok [0xAF; 0x5F].
Proof.
  split; [lia|].
  exact (proj1 C1_protocol_encoding 7 0x5A ltac:(lia) ltac:(lia)).
Defined.

(** C3, as the code has it.  For every chip (address in [0,8)) whose last
    written value is not already [v], and every 8-bit [v], two consecutive
    [write(v)] calls append exactly one telegram pair to the port: the
    first call appends the pair, the second appends nothing, and the
    chip's last written value is [v] after each of them. *)
Theorem C3_second_write_suppressed (c : SN74LV8153.t) (v : Z) (w : World) :
  valid_chip c -> 0 <= v < 256 -> SN74LV8153._last_value c <> v ->
  exists c1 w1 c2 w2 lo hi,
    SN74LV8153.write v (c, w) = (Ok tt, (c1, w1)) /\
    SN74LV8153.write v (c1, w1) = (Ok tt, (c2, w2)) /\
    SN74LV8153._protocol (SN74LV8153._addr c) v = Ok [lo; hi] /\
    wire w1 = wire w ++ [lo; hi] /\
    wire w2 = wire w1 /\
    SN74LV8153._last_value c1 = v /\
    SN74LV8153._last_value c2 = v.
Proof.
  intros Hc Hv Hne.
  exists (latched c v), (chip_world c v w),
         (latched (latched c v) v), (chip_world (latched c v) v (chip_world c v w)),
         (low_nibble (SN74LV8153._addr c) v), (high_nibble (SN74LV8153._addr c) v).
  split; [apply chip_write_ok; exact Hc|].
  split; [apply chip_write_ok; exact Hc|].
  split; [apply protocol_ok; assumption|].
  split.
  - rewrite chip_world_wire. unfold sent. rewrite (mask_of_byte v Hv).
    destruct (v =? SN74LV8153._last_value c) eqn:E; [|reflexivity].
    apply Z.eqb_eq in E. congruence.
  - split; [rewrite chip_world_wire, sent_again; apply app_nil_r|].
    cbn [latched SN74LV8153._last_value]. rewrite (mask_of_byte v Hv). auto.
Qed.

Lemma C3_witness :
  exists c1 w1 c2 w2 lo hi,
    SN74LV8153.write 0xAB ({| SN74LV8153._addr := 5; SN74LV8153._last_value := -1 |}, world0 833)
    = (Ok tt, (c1, w1)) /\
    SN74LV8153.write 0xAB (c1, w1) = (Ok tt, (c2, w2)) /\
    SN74LV8153._protocol 5 0xAB = Ok [lo; hi] /\
    wire w1 = wire (world0 833) ++ [lo; hi] /\
    wire w2 = wire w1 /\
    SN74LV8153._last_value c1 = 0xAB /\
    SN74LV8153._last_value c2 = 0xAB.
Proof.
  apply (C3_second_write_suppressed
           {| SN74LV8153._addr := 5; SN74LV8153._last_value := -1 |} 0xAB (world0 833)).
  - unfold valid_chip. simpl. lia.
  - lia.
  - simpl. lia.
Defined.

(** C3 as stated fails on a chip that already holds [v]: both calls are
    suppressed and no telegram pair reaches the port. *)
Lemma C3_counterexample :
  let r1 := SN74LV8153.write 5 (holding5, world0 833) in
  let r2 := SN74LV8153.write 5 (snd r1) in
  valid_chip holding5 /\
  fst r1 = Ok tt /\ fst r2 = Ok tt /\
  wire (snd (snd r2)) = wire (world0 833) /\
  ~ (exists lo hi, wire (snd (snd r2)) = wire (world0 833) ++ [lo; hi]).
Proof.
  cbv zeta. split; [unfold valid_chip; simpl; lia|].
  split; [reflexivity|]. split; [reflexivity|]. split; [reflexivity|].
  intros (lo & hi & H). discriminate H.
Qed.

(** C4.  For every address <= 0x7FFF and every byte, [write_byte] returns
    and makes exactly five chip writes, in this order: the byte to the
    data chip (2), [addr & 0xFF] to the low-address chip (0),
    [(addr >> 8) | WRITE_DISABLE_BIT] to the high-address chip (1), then,
    after the delay (at most one sleep and nothing else), [addr >> 8] to
    the high-address chip and [(addr >> 8) | WRITE_DISABLE_BIT] to it
    again. *)
Theorem C4_write_byte_order (addr byte : Z) (p : BbEeProg.t) (w : World) :
  wired p -> addr <= 0x7FFF ->
  exists p' w' new idle,
    BbEeProg.write_byte addr byte (p, w) = (Ok tt, (p', w')) /\
    trace w' = trace w ++ new /\
    events new
    = [ByteWrite addr byte;
       ChanWrite 2 byte;
       ChanWrite 0 (Z.land addr 0xFF);
       ChanWrite 1 (Z.lor (Z.shiftr addr 8) BbEeProg.ADDR_HI_WRITE_DISABLE_BIT)]
      ++ idle
      ++ [ChanWrite 1 (Z.shiftr addr 8);
          ChanWrite 1 (Z.lor (Z.shiftr addr 8) BbEeProg.ADDR_HI_WRITE_DISABLE_BIT)] /\
    (idle = [] \/ exists us, 0 < us /\ idle = [Sleep us]) /\
    chan_writes new
    = [(2, byte);
       (0, Z.land addr 0xFF);
       (1, Z.lor (Z.shiftr addr 8) BbEeProg.ADDR_HI_WRITE_DISABLE_BIT);
       (1, Z.shiftr addr 8);
       (1, Z.lor (Z.shiftr addr 8) BbEeProg.ADDR_HI_WRITE_DISABLE_BIT)].
Proof.
  intros Hp Ha.
  destruct (byte_world_trace addr byte p w Hp)
    as (t_lo & t_hi & t_now & t_release & _ & E).
  exists (byte_prog addr byte p w), (byte_world addr byte p w).
  eexists.
  exists (if 0 <? delay_us p (settled addr byte p w)
          then [Sleep (delay_us p (settled addr byte p w))] else []).
  split; [apply write_byte_ok; assumption|].
  split; [exact E|].
  fold (hi_idle addr).
  destruct (0 <? delay_us p (settled addr byte p w)) eqn:D.
  - split; [reflexivity|]. split; [|reflexivity].
    right. eexists. split; [|reflexivity]. apply Z.ltb_lt. exact D.
  - split; [reflexivity|]. split; [|reflexivity]. left. reflexivity.
Qed.

Lemma C4_witness :
  exists p' w' new idle,
    BbEeProg.write_byte 0x1234 0x56 session0 = (Ok tt, (p', w')) /\
    trace w' = trace (snd session0) ++ new /\
    events new
    = [ByteWrite 0x1234 0x56; ChanWrite 2 0x56; ChanWrite 0 0x34; ChanWrite 1 0x92]
      ++ idle ++ [ChanWrite 1 0x12; ChanWrite 1 0x92] /\
    (idle = [] \/ exists us, 0 < us /\ idle = [Sleep us]) /\
    chan_writes new = [(2, 0x56); (0, 0x34); (1, 0x92); (1, 0x12); (1, 0x92)].
Proof.
  apply (C4_write_byte_order 0x1234 0x56 (fst session0) (snd session0)).
  - repeat split.
  - lia.
Defined.

(** C7.  Under the mocked clock, for two consecutive [write_byte] calls:
    the first call records the clock at its completion as
    [_dt_last_write]; the second call sets up data and address, reads the
    clock, computes [delay = (_dt_last_write + 15 ms) - now()], sleeps for
    [delay] exactly when it is positive, and only then asserts the strobe
    ([addr >> 8] on the high-address chip), at a clock that is at least
    15 ms after the first call's completion timestamp. *)
Theorem C7_write_cycle_spacing
    (a1 b1 a2 b2 : Z) (p p1 : BbEeProg.t) (w w1 : World) :
  wired p -> a2 <= 0x7FFF ->
  BbEeProg.write_byte a1 b1 (p, w) = (Ok tt, (p1, w1)) ->
  BbEeProg._dt_last_write p1 = clock w1 /\
  exists p2 w2 setup t_now t_assert t_release,
    BbEeProg.write_byte a2 b2 (p1, w1) = (Ok tt, (p2, w2)) /\
    let delay :=
      BbEeProg._dt_last_write p1
      + BbEeProg.timedelta_ms BbEeProg.WRITE_CYCLE_MS - t_now in
    trace w2
    = trace w1 ++ setup
      ++ (if 0 <? delay then [(t_now, Sleep delay)] else [])
      ++ [(t_assert, ChanWrite 1 (Z.shiftr a2 8));
          (t_release,
           ChanWrite 1 (Z.lor (Z.shiftr a2 8) BbEeProg.ADDR_HI_WRITE_DISABLE_BIT))] /\
    events setup
    = [ByteWrite a2 b2; ChanWrite 2 b2; ChanWrite 0 (Z.land a2 0xFF);
       ChanWrite 1 (Z.lor (Z.shiftr a2 8) BbEeProg.ADDR_HI_WRITE_DISABLE_BIT)] /\
    t_assert = Z.max t_now (t_now + delay) /\
    BbEeProg._dt_last_write p1
    + BbEeProg.timedelta_ms BbEeProg.WRITE_CYCLE_MS <= t_assert.
Proof.
  intros Hp Ha2 H1.
  assert (Ha1 : a1 <= 0x7FFF).
  { destruct (Z.leb_spec a1 0x7FFF) as [L|G]; [exact L|].
    unfold BbEeProg.write_byte, bind, assert in H1.
    rewrite (proj2 (Z.leb_gt a1 0x7FFF) G) in H1. discriminate H1. }
  rewrite (write_byte_ok a1 b1 p w Hp Ha1) in H1.
  inversion H1; subst p1 w1; clear H1.
  split; [reflexivity|].
  set (p1 := byte_prog a1 b1 p w). set (w1 := byte_world a1 b1 p w).
  assert (Hp1 : wired p1) by (apply byte_prog_wired; exact Hp).
  destruct (byte_world_trace a2 b2 p1 w1 Hp1)
    as (t_lo & t_hi & t_now & t_release & Hnow & E).
  exists (byte_prog a2 b2 p1 w1), (byte_world a2 b2 p1 w1).
  exists [(clock w1, ByteWrite a2 b2); (clock w1, ChanWrite 2 b2);
          (t_lo, ChanWrite 0 (Z.land a2 0xFF)); (t_hi, ChanWrite 1 (hi_idle a2))].
  exists t_now, (clock (waited p1 (settled a2 b2 p1 w1))), t_release.
  split; [apply write_byte_ok; assumption|].
  cbv zeta.
  change (BbEeProg._dt_last_write p1
          + BbEeProg.timedelta_ms BbEeProg.WRITE_CYCLE_MS)
    with (BbEeProg._dt_last_write p1 + 15000).
  split; [|split; [reflexivity|split]].
  - rewrite E. rewrite Hnow. unfold delay_us. reflexivity.
  - rewrite Hnow. unfold waited, delay_us.
    destruct (0 <? BbEeProg._dt_last_write p1 + 15000 - clock (settled a2 b2 p1 w1)) eqn:D.
    + apply Z.ltb_lt in D. cbn [time_sleep emit clock]. lia.
    + apply Z.ltb_ge in D. lia.
  - apply waited_clock.
Qed.

Lemma C7_witness :
  (wired (fst session0) /\ 1 <= 0x7FFF /\
   BbEeProg.write_byte 0 0x11 session0 = (Ok tt, session1)) /\
  BbEeProg._dt_last_write (fst session1) = clock (snd session1) /\
  exists p2 w2 setup t_now t_assert t_release,
    BbEeProg.write_byte 1 0x22 session1 = (Ok tt, (p2, w2)) /\
    let delay :=
      BbEeProg._dt_last_write (fst session1)
      + BbEeProg.timedelta_ms BbEeProg.WRITE_CYCLE_MS - t_now in
    trace w2
    = trace (snd session1) ++ setup
      ++ (if 0 <? delay then [(t_now, Sleep delay)] else [])
      ++ [(t_assert, ChanWrite 1 (Z.shiftr 1 8));
          (t_release,
           ChanWrite 1 (Z.lor (Z.shiftr 1 8) BbEeProg.ADDR_HI_WRITE_DISABLE_BIT))] /\
    events setup
    = [ByteWrite 1 0x22; ChanWrite 2 0x22; ChanWrite 0 (Z.land 1 0xFF);
       ChanWrite 1 (Z.lor (Z.shiftr 1 8) BbEeProg.ADDR_HI_WRITE_DISABLE_BIT)] /\
    t_assert = Z.max t_now (t_now + delay) /\
    BbEeProg._dt_last_write (fst session1)
    + BbEeProg.timedelta_ms BbEeProg.WRITE_CYCLE_MS <= t_assert.
Proof.
  assert (H1 : BbEeProg.write_byte 0 0x11 session0 = (Ok tt, session1))
    by (vm_compute; reflexivity).
  split; [split; [repeat split|split; [lia|exact H1]]|].
  exact (C7_write_cycle_spacing 0 0x11 1 0x22 (fst session0) (fst session1)
           (snd session0) (snd session1) session0_wired ltac:(lia) H1).
Defined.

(** C10.  nWE is never left asserted between byte writes.  [__enter__]
    always succeeds, sends the telegram pair of WRITE_DISABLE_BIT (0x80)
    to the high-address chip and leaves 0x80 as that chip's last written
    value; every [write_byte] call that returns, from whatever state it
    was made, leaves [((addr >> 8) | WRITE_DISABLE_BIT) & 0xFF] as the
    high-address chip's last written value.  Both are values a [write]
    has stored (in [0,256), never the unwritten -1) and have bit 7
    (WRITE_DISABLE_BIT) set. *)
Theorem C10_write_enable_released :
  (forall w : World,
      exists p w',
        BbEeProg.__enter__ w = (Ok p, w') /\
        wire w' = wire w ++ [0x03; 0x83] /\
        SN74LV8153._last_value (BbEeProg._addr_hi p)
        = BbEeProg.ADDR_HI_WRITE_DISABLE_BIT /\
        Z.testbit (SN74LV8153._last_value (BbEeProg._addr_hi p)) 7 = true) /\
  (forall (addr byte : Z) (p p' : BbEeProg.t) (w w' : World),
      BbEeProg.write_byte addr byte (p, w) = (Ok tt, (p', w')) ->
      SN74LV8153._last_value (BbEeProg._addr_hi p')
      = Z.land (Z.lor (Z.shiftr addr 8) BbEeProg.ADDR_HI_WRITE_DISABLE_BIT) 0xFF /\
      0 <= SN74LV8153._last_value (BbEeProg._addr_hi p') < 256 /\
      Z.testbit (SN74LV8153._last_value (BbEeProg._addr_hi p')) 7 = true).
Proof.
  split.
  - intros w. unfold BbEeProg.__enter__. cbn.
    eexists _, _. split; [reflexivity|]. repeat split.
  - intros addr byte p p' w w' H. unfold BbEeProg.write_byte in H.
    do 9 (apply bind_Ok_inv in H; destruct H as (? & ? & _ & H)).
    apply bind_Ok_inv in H. destruct H as (u & [p9 w9] & Hlast & H).
    unfold bind, now, self, set_self in H. cbn [fst snd] in H.
    inversion H; subst p' w'; clear H.
    cbn [BbEeProg.set_dt_last_write BbEeProg._addr_hi].
    unfold BbEeProg.addr_hi, BbEeProg.on in Hlast. cbn [fst snd] in Hlast.
    match type of Hlast with
    | (fst ?call, _) = _ => destruct call as [res [c9 w9']] eqn:Er
    end.
    cbn [fst snd] in Hlast. inversion Hlast; subst; clear Hlast.
    cbn [BbEeProg.set_addr_hi BbEeProg._addr_hi].
    rewrite (chip_write_latches _ _ _ _ _ _ Er).
    split; [reflexivity|]. split; [apply mask_is_byte|].
    apply bit7_released.
Qed.

Lemma C10_witness :
  BbEeProg.write_byte 0 0x11 session0 = (Ok tt, session1) /\
  SN74LV8153._last_value (BbEeProg._addr_hi (fst session1))
  = Z.land (Z.lor (Z.shiftr 0 8) BbEeProg.ADDR_HI_WRITE_DISABLE_BIT) 0xFF /\
  0 <= SN74LV8153._last_value (BbEeProg._addr_hi (fst session1)) < 256 /\
  Z.testbit (SN74LV8153._last_value (BbEeProg._addr_hi (fst session1))) 7 = true.
Proof.
  assert (H1 : BbEeProg.write_byte 0 0x11 session0 = (Ok tt, session1))
    by (vm_compute; reflexivity).
  split; [exact H1|].
  exact (proj2 C10_write_enable_released 0 0x11 (fst session0) (fst session1)
               (snd session0) (snd session1) H1).
Defined.

Lemma ADDRESS_SPACE_Z : Z.of_nat ADDRESS_SPACE = 32768.
Proof. reflexivity. Qed.

(** Once the loop has returned with [addr] bound, [write] prints its last
    report and returns. *)
Lemma write_after_loop data old_data st l a p' w' :
  BbEeProg.for_loop (BbEeProg.zip_longest data old_data) 0 locals0 st
  = (Ok l, (p', w')) ->
  BbEeProg.addr l = Some a ->
  exists r,
    BbEeProg.write data old_data st = (Ok tt, (p', emit (Print r) w')) /\
    (BbEeProg.last_chunk_was_old l = false ->
     r = Wrote (BbEeProg.last_chunk_start l) a
               (a + 1 - BbEeProg.last_chunk_start l)) /\
    (BbEeProg.last_chunk_was_old l = true ->
     BbEeProg.last_chunk_start l = 0 -> r = NothingToDo).
Proof.
  intros E Ha. unfold BbEeProg.write. fold locals0. unfold bind at 1. rewrite E.
  destruct (BbEeProg.last_chunk_was_old l); cbn [negb].
  - destruct (BbEeProg.last_chunk_start l =? 0) eqn:Z0.
    + eexists. split; [reflexivity|]. split; [discriminate|reflexivity].
    + rewrite Ha. eexists. split; [reflexivity|].
      split; [discriminate|]. intros _ H0. rewrite H0 in Z0. discriminate.
  - rewrite Ha. eexists. split; [reflexivity|].
    split; [reflexivity|discriminate].
Qed.

(** C2, as the code has it.  When the old data is strictly shorter than
    the data (and the data fits the address space), the loop does not stop
    where the old data ends: [write] returns normally and every address
    from the old data's length up to the data's last address is visited
    and written with the data's byte at that address. *)
Theorem C2_tail_past_baseline_written
    (data old_data : list Z) (p : BbEeProg.t) (w : World) :
  wired p ->
  (length old_data < length data)%nat ->
  Z.of_nat (length data) <= 32768 ->
  exists p' w' new,
    BbEeProg.write data old_data (p, w) = (Ok tt, (p', w')) /\
    trace w' = trace w ++ new /\
    forall (a : nat) (byte : Z),
      (length old_data <= a)%nat -> nth_error data a = Some byte ->
      In (Z.of_nat a, byte) (byte_writes new).
Proof.
  intros Hp Hlen Hfit.
  destruct (zip_longest_bytes data old_data ltac:(lia)) as [_ L].
  destruct (for_loop_ok (BbEeProg.zip_longest data old_data) 0 locals0 p w Hp
              ltac:(rewrite L; lia))
    as (l & p' & w' & new & E & Hp' & T & B & A).
  assert (Hne : BbEeProg.zip_longest data old_data <> []).
  { intros C. rewrite C in L. cbn in L. lia. }
  destruct (BbEeProg.addr l) as [a|] eqn:Ea; [|exfalso; exact (A Hne eq_refl)].
  destruct (write_after_loop data old_data (p, w) l a p' w' E Ea) as (r & W & _).
  exists p', (emit (Print r) w'), (new ++ [(clock w', Print r)]).
  split; [exact W|]. split.
  - cbn [emit trace]. rewrite T, app_assoc. reflexivity.
  - intros k byte Hk Hb. rewrite byte_writes_app, B. apply in_or_app. left.
    exact (changed_tail data old_data 0 k byte Hk Hb).
Qed.

Lemma C2_witness :
  (wired (fst session0) /\ (length [1] < length [1; 2])%nat /\
   Z.of_nat (length [1; 2]) <= 32768) /\
  exists p' w' new,
    BbEeProg.write [1; 2] [1] (fst session0, snd session0) = (Ok tt, (p', w')) /\
    trace w' = trace (snd session0) ++ new /\
    forall (a : nat) (byte : Z),
      (length [1] <= a)%nat -> nth_error [1; 2] a = Some byte ->
      In (Z.of_nat a, byte) (byte_writes new).
Proof.
  split; [split; [repeat split|split; [simpl; lia|simpl; lia]]|].
  apply (C2_tail_past_baseline_written [1; 2] [1] (fst session0) (snd session0)).
  - repeat split.
  - simpl. lia.
  - simpl. lia.
Defined.

(** C2 as stated fails: with data [1; 2] and old data [1], address 1 is
    not below the old data's length, and it is visited and written. *)
Lemma C2_counterexample :
  let r := BbEeProg.write [1; 2] [1] session0 in
  (length [1] < length [1; 2])%nat /\
  fst r = Ok tt /\
  byte_writes (trace (snd (snd r))) = [(1, 2)] /\
  wire (snd (snd r))
  = wire (snd session0) ++ [37; 5] ++ [17; 1] ++ [3; 3] ++ [3; 131] /\
  ~ (forall a byte, In (a, byte) (byte_writes (trace (snd (snd r)))) ->
                    a < Z.of_nat (length [1])).
Proof.
  cbv zeta. split; [simpl; lia|].
  split; [vm_compute; reflexivity|].
  split; [vm_compute; reflexivity|].
  split; [vm_compute; reflexivity|].
  intros H. specialize (H 1 2).
  assert (In (1, 2) (byte_writes (trace (snd (snd (BbEeProg.write [1; 2] [1] session0))))))
    as Hin by (vm_compute; left; reflexivity).
  specialize (H Hin). simpl in H. lia.
Qed.

(** C5.  An address of 2^15 or more is a fatal precondition violation:
    [write_byte] raises its assertion error before it sends or changes
    anything; and when the data is longer than 2^15 bytes, [write] works
    through the addresses below 2^15, then raises the "Address overflow"
    assertion error at address 2^15, in the very state the loop had
    reached after address 2^15 - 1: no address of 2^15 or above is written
    and no further byte is sent. *)
Theorem C5_address_overflow :
  (forall (addr byte : Z) (st : BbEeProg.t * World),
      0x7FFF < addr ->
      BbEeProg.write_byte addr byte st = (Raise (AssertionError None), st)) /\
  (forall (data old_data : list Z) (p : BbEeProg.t) (w : World),
      wired p -> 32768 < Z.of_nat (length data) ->
      exists l p' w' new,
        BbEeProg.for_loop
          (BbEeProg.zip_longest (firstn ADDRESS_SPACE data)
                                (firstn ADDRESS_SPACE old_data))
          0 locals0 (p, w)
        = (Ok l, (p', w')) /\
        BbEeProg.write data old_data (p, w)
        = (Raise (AssertionError (Some "Address overflow, too much data"%string)),
           (p', w')) /\
        trace w' = trace w ++ new /\
        Forall (fun ab : Z * Z => 0 <= fst ab < 32768) (byte_writes new)).
Proof.
  split.
  - intros addr byte st Ha. unfold BbEeProg.write_byte, bind, assert.
    rewrite (proj2 (Z.leb_gt addr 0x7FFF) Ha). reflexivity.
  - intros data old_data p w Hp Hlen.
    pose proof ADDRESS_SPACE_Z as HK.
    assert (Hk : (ADDRESS_SPACE <= length data)%nat) by lia.
    set (xs := BbEeProg.zip_longest (firstn ADDRESS_SPACE data)
                                    (firstn ADDRESS_SPACE old_data)).
    assert (Lf : length (firstn ADDRESS_SPACE data) = ADDRESS_SPACE)
      by (apply firstn_length_le; exact Hk).
    assert (Lo : (length (firstn ADDRESS_SPACE old_data)
                  <= length (firstn ADDRESS_SPACE data))%nat)
      by (rewrite Lf; apply firstn_le_length).
    destruct (zip_longest_bytes _ _ Lo) as [F L]. fold xs in F, L.
    rewrite Lf in L.
    destruct (for_loop_ok xs 0 locals0 p w Hp ltac:(rewrite L; lia))
      as (l & p' & w' & new & E & Hp' & T & B & _).
    exists l, p', w', new.
    split; [exact E|]. split; [|split; [exact T|]].
    + unfold BbEeProg.write. fold locals0.
      rewrite (zip_longest_split ADDRESS_SPACE data old_data Hk). fold xs.
      unfold bind at 1. rewrite (for_loop_app xs _ 0 locals0 (p, w) F).
      unfold bind at 1. rewrite E. rewrite L.
      destruct (skipn ADDRESS_SPACE data) as [|byte tl] eqn:Es.
      * exfalso. apply (f_equal (@length Z)) in Es.
        rewrite length_skipn in Es. cbn [length] in Es. lia.
      * destruct (skipn ADDRESS_SPACE old_data);
          cbn [BbEeProg.zip_longest BbEeProg.for_loop];
          unfold bind at 1; rewrite HK; reflexivity.
    + rewrite B. eapply Forall_impl; [|apply (changed_bound xs 0); lia].
      intros ab. cbn beta. rewrite L. lia.
Qed.

Lemma C5_witness :
  (0x7FFF < 0x8000 /\ wired (fst session0) /\
   32768 < Z.of_nat (length (repeat 0xFF (Z.to_nat 32769)))) /\
  BbEeProg.write_byte 0x8000 0xFF session0 = (Raise (AssertionError None), session0) /\
  exists l p' w' new,
    BbEeProg.for_loop
      (BbEeProg.zip_longest (firstn ADDRESS_SPACE (repeat 0xFF (Z.to_nat 32769)))
                            (firstn ADDRESS_SPACE []))
      0 locals0 (fst session0, snd session0)
    = (Ok l, (p', w')) /\
    BbEeProg.write (repeat 0xFF (Z.to_nat 32769)) [] (fst session0, snd session0)
    = (Raise (AssertionError (Some "Address overflow, too much data"%string)),
       (p', w')) /\
    trace w' = trace (snd session0) ++ new /\
    Forall (fun ab : Z * Z => 0 <= fst ab < 32768) (byte_writes new).
Proof.
  assert (Hlen : 32768 < Z.of_nat (length (repeat 0xFF (Z.to_nat 32769))))
    by (rewrite repeat_length; lia).
  split; [split; [lia|split; [repeat split|exact Hlen]]|].
  split.
  - apply (proj1 C5_address_overflow 0x8000 0xFF session0). lia.
  - apply (proj2 C5_address_overflow (repeat 0xFF (Z.to_nat 32769)) []
                 (fst session0) (snd session0)).
    + repeat split.
    + exact Hlen.
Defined.

(** C6, as the code has it.  Without old data, and with data that fits
    the address space (at most 2^15 bytes),
    [write_byte] is called for every address from 0 to the data's length
    minus one, in order, with the byte at that address, and no skipped run
    is ever reported; non-empty data ends in the single report of one
    written run over all of it. *)
Theorem C6_no_baseline_writes_all (data : list Z) (p : BbEeProg.t) (w : World) :
  wired p -> Z.of_nat (length data) <= 32768 ->
  exists r p' w' new,
    BbEeProg.write data [] (p, w) = (r, (p', w')) /\
    trace w' = trace w ++ new /\
    byte_writes new = enumerate data 0 /\
    (forall first last count, ~ In (Skipped first last count) (reports new)) /\
    (data <> [] ->
     r = Ok tt /\
     reports new
     = [Wrote 0 (Z.of_nat (length data) - 1) (Z.of_nat (length data))]).
Proof.
  intros Hp Hfit.
  destruct (for_loop_no_baseline data 0 locals0 p w Hp ltac:(lia) eq_refl)
    as (l & p' & w' & new & E & Hp' & T & B & R & Ho & Hs & Ha).
  destruct data as [|byte data].
  - exists (Raise (UnboundLocalError "addr")), p', w', new.
    split.
    + unfold BbEeProg.write. fold locals0. unfold bind at 1. rewrite E.
      rewrite Ho. cbn [negb]. rewrite Ha. reflexivity.
    + split; [exact T|]. split; [exact B|].
      split; [intros ? ? ?; rewrite R; intros []|]. intros C. congruence.
  - destruct (write_after_loop (byte :: data) [] (p, w) l _ p' w' E Ha)
      as (r & W & Hr & _).
    specialize (Hr Ho). rewrite Hs in Hr. cbn [BbEeProg.last_chunk_start locals0] in Hr.
    exists (Ok tt), p', (emit (Print r) w'), (new ++ [(clock w', Print r)]).
    split; [exact W|]. split; [cbn [emit trace]; rewrite T, app_assoc; reflexivity|].
    split; [rewrite byte_writes_app, B; apply app_nil_r|].
    rewrite reports_app, R. cbn [app reports flat_map snd]. split.
    + intros f la c [H|[]]. rewrite Hr in H. discriminate.
    + intros _. split; [reflexivity|]. rewrite Hr. f_equal. f_equal; lia.
Qed.

Lemma C6_witness :
  (wired (fst session0) /\ Z.of_nat (length [0x10; 0x20; 0x30]) <= 32768) /\
  exists r p' w' new,
    BbEeProg.write [0x10; 0x20; 0x30] [] (fst session0, snd session0) = (r, (p', w')) /\
    trace w' = trace (snd session0) ++ new /\
    byte_writes new = enumerate [0x10; 0x20; 0x30] 0 /\
    (forall first last count, ~ In (Skipped first last count) (reports new)) /\
    ([0x10; 0x20; 0x30] <> [] ->
     r = Ok tt /\
     reports new
     = [Wrote 0 (Z.of_nat (length [0x10; 0x20; 0x30]) - 1)
              (Z.of_nat (length [0x10; 0x20; 0x30]))]).
Proof.
  split; [split; [repeat split|simpl; lia]|].
  apply (C6_no_baseline_writes_all [0x10; 0x20; 0x30] (fst session0) (snd session0)).
  - repeat split.
  - simpl. lia.
Defined.

Lemma enumerate_in data : forall n (k : nat) b,
  nth_error data k = Some b -> In (n + Z.of_nat k, b) (enumerate data n).
Proof.
  induction data as [|byte data IH]; intros n k b H.
  - destruct k; discriminate H.
  - destruct k as [|k]; cbn [nth_error enumerate] in *.
    + inversion H; subst. left. f_equal. lia.
    + right. replace (n + Z.of_nat (S k)) with (n + 1 + Z.of_nat k) by lia.
      apply IH. exact H.
Qed.

(** Data longer than the address space: the run ends in the overflow
    assertion, with all byte writes below 2^15. *)
Lemma write_overflow (data old_data : list Z) (p : BbEeProg.t) (w : World) :
  wired p -> 32768 < Z.of_nat (length data) ->
  exists p' w' new,
    BbEeProg.write data old_data (p, w)
    = (Raise (AssertionError (Some "Address overflow, too much data"%string)),
       (p', w')) /\
    trace w' = trace w ++ new /\
    Forall (fun ab : Z * Z => 0 <= fst ab < 32768) (byte_writes new).
Proof.
  intros Hp Hlen. pose proof ADDRESS_SPACE_Z as HK.
  assert (Hk : (ADDRESS_SPACE <= length data)%nat) by lia.
  set (head := firstn ADDRESS_SPACE data).
  set (old_head := firstn ADDRESS_SPACE old_data).
  assert (Lh : length head = ADDRESS_SPACE) by (apply firstn_length_le; exact Hk).
  assert (Lo : (length old_head <= length head)%nat)
    by (rewrite Lh; apply firstn_le_length).
  destruct (zip_longest_bytes head old_head Lo) as [F L]. rewrite Lh in L.
  destruct (for_loop_ok (BbEeProg.zip_longest head old_head) 0 locals0 p w Hp
              ltac:(rewrite L; lia))
    as (l & p' & w' & new & E & _ & T & B & _).
  exists p', w', new. split; [|split; [exact T|]].
  - unfold BbEeProg.write. fold locals0.
    rewrite (zip_longest_split ADDRESS_SPACE data old_data Hk).
    fold head. fold old_head.
    unfold bind at 1. rewrite (for_loop_app _ _ 0 locals0 (p, w) F).
    unfold bind at 1. rewrite E, L.
    destruct (skipn ADDRESS_SPACE data) as [|byte tl] eqn:Es.
    + exfalso. apply (f_equal (@length Z)) in Es.
      rewrite length_skipn in Es. cbn [length] in Es. lia.
    + destruct (skipn ADDRESS_SPACE old_data);
        cbn [BbEeProg.zip_longest BbEeProg.for_loop];
        unfold bind at 1; rewrite HK; reflexivity.
  - rewrite B. eapply Forall_impl; [|apply (changed_bound _ 0); lia].
    intros ab. cbn beta. rewrite L. lia.
Qed.

(** C6 as stated fails for data longer than the address space: with
    2^15 + 1 bytes and no old data the run ends in the overflow assertion
    and the byte at address 2^15 is never written. *)
Lemma C6_counterexample :
  exists p' w' new,
    BbEeProg.write (repeat 0xFF (Z.to_nat 32769)) [] (fst session0, snd session0)
    = (Raise (AssertionError (Some "Address overflow, too much data"%string)),
       (p', w')) /\
    trace w' = trace (snd session0) ++ new /\
    nth_error (repeat 0xFF (Z.to_nat 32769)) (Z.to_nat 32768) = Some 0xFF /\
    ~ In (32768, 0xFF) (byte_writes new) /\
    byte_writes new <> enumerate (repeat 0xFF (Z.to_nat 32769)) 0.
Proof.
  assert (Hlen : 32768 < Z.of_nat (length (repeat 0xFF (Z.to_nat 32769))))
    by (rewrite repeat_length; lia).
  destruct (write_overflow (repeat 0xFF (Z.to_nat 32769)) [] (fst session0)
              (snd session0) session0_wired Hlen)
    as (p' & w' & new & W & T & F).
  assert (Hnth : nth_error (repeat 0xFF (Z.to_nat 32769)) (Z.to_nat 32768) = Some 0xFF)
    by (apply nth_error_repeat; lia).
  assert (Hout : ~ In (32768, 0xFF) (byte_writes new)).
  { intros Hin. rewrite Forall_forall in F. specialize (F _ Hin). cbn [fst] in F. lia. }
  exists p', w', new. split; [exact W|]. split; [exact T|].
  split; [exact Hnth|]. split; [exact Hout|].
  intros Heq. apply Hout. rewrite Heq.
  pose proof (enumerate_in _ 0 _ _ Hnth) as Hin.
  replace (0 + Z.of_nat (Z.to_nat 32768)) with 32768 in Hin by lia.
  exact Hin.
Qed.

(** C8, as the code has it.  When every byte of the (non-empty) data equals the corresponding
    byte of the old data, [write] calls [write_byte] for no address, sends
    nothing and changes nothing: it returns after the one report
    "Nothing to do", and prints neither a written run nor a skipped
    range.  The old data may be longer than the data, as long as the loop
    stays inside the address space. *)
Theorem C8_nothing_to_do (data rest : list Z) (st : BbEeProg.t * World) :
  data <> [] ->
  Z.of_nat (length data) < 32768 \/
  (Z.of_nat (length data) = 32768 /\ rest = []) ->
  BbEeProg.write data (data ++ rest) st
  = (Ok tt, (fst st, emit (Print NothingToDo) (snd st))).
Proof.
  intros Hne Hfit. destruct data as [|byte data]; [congruence|].
  cbn [length] in Hfit.
  assert (Hfit' : Z.of_nat (length data) + 1 < 32768 \/
                  (Z.of_nat (length data) + 1 = 32768 /\ rest = []))
    by (destruct Hfit as [H|[H Hr]]; [left; lia|right; split; [lia|exact Hr]]).
  destruct (for_loop_unchanged data rest 1
              {| BbEeProg.last_chunk_was_old := true;
                 BbEeProg.last_chunk_start := 0;
                 BbEeProg.addr := Some 0 |} st Hfit' eq_refl)
    as (l & E & Ho & Hs).
  unfold BbEeProg.write. unfold bind at 1.
  cbn [app BbEeProg.zip_longest BbEeProg.for_loop].
  unfold bind at 1. cbn [assert Z.ltb Z.compare Z.pow Z.pow_pos Pos.iter Z.mul Pos.mul].
  unfold ret at 1.
  unfold BbEeProg.loop_body. cbn [BbEeProg.py_eq]. rewrite Z.eqb_refl.
  cbn [BbEeProg.last_chunk_was_old BbEeProg.last_chunk_start BbEeProg.addr negb
       Z.eqb BbEeProg.when].
  unfold bind at 1. unfold bind at 1. unfold ret at 1. unfold ret at 1.
  change (0 + 1) with 1. rewrite E. rewrite Ho, Hs. cbn [negb BbEeProg.last_chunk_start Z.eqb].
  destruct st as [p w]. reflexivity.
Qed.

Lemma C8_witness :
  ([1; 2; 3] <> [] /\
   (Z.of_nat (length [1; 2; 3]) < 32768 \/
    (Z.of_nat (length [1; 2; 3]) = 32768 /\ [4; 5] = []))) /\
  BbEeProg.write [1; 2; 3] ([1; 2; 3] ++ [4; 5]) session0
  = (Ok tt, (fst session0, emit (Print NothingToDo) (snd session0))).
Proof.
  split; [split; [discriminate|left; simpl; lia]|].
  apply (C8_nothing_to_do [1; 2; 3] [4; 5] session0).
  - discriminate.
  - left. simpl. lia.
Defined.

(** Equal bytes up to the end of the address space, and old data beyond
    it: the loop reaches index 2^15 and fails on the overflow assertion,
    having changed nothing. *)
Lemma for_loop_unchanged_overflow data rest : forall n l st,
  0 <= n -> Z.of_nat (length data) + n = 32768 -> rest <> [] ->
  BbEeProg.last_chunk_was_old l = true ->
  BbEeProg.for_loop (BbEeProg.zip_longest data (data ++ rest)) n l st
  = (Raise (AssertionError (Some "Address overflow, too much data"%string)), st).
Proof.
  induction data as [|byte data IH]; intros n l st Hn0 Hn Hrest Hl.
  - cbn [length] in Hn. assert (n = 32768) by lia. subst n.
    destruct rest as [|o rest]; [congruence|]. reflexivity.
  - cbn [length] in Hn.
    cbn [BbEeProg.zip_longest app BbEeProg.for_loop].
    unfold bind at 1, assert.
    assert (Hlt : (n <? 2 ^ 15) = true) by (apply Z.ltb_lt; lia).
    rewrite Hlt. unfold ret at 1.
    unfold BbEeProg.loop_body. cbn [BbEeProg.py_eq BbEeProg.last_chunk_was_old].
    rewrite Z.eqb_refl, Hl. cbn [negb]. unfold bind at 1. unfold ret at 1.
    apply IH; [lia|lia|exact Hrest|reflexivity].
Qed.

(** C8 as stated fails in two places.  With empty data and old data that
    is not empty every byte of the data equals its old byte, yet the
    driver reports a written run.  With 2^15 bytes of data and old data
    that starts with the same bytes and is one byte longer, the driver
    reports nothing at all: it fails on the overflow assertion. *)
Lemma C8_counterexample :
  BbEeProg.write [] ([] ++ [7]) session0
  = (Ok tt, (fst session0, emit (Print (Wrote 0 0 1)) (snd session0))) /\
  BbEeProg.write [] ([] ++ [7]) session0
  <> (Ok tt, (fst session0, emit (Print NothingToDo) (snd session0))) /\
  BbEeProg.write (repeat 0xFF (Z.to_nat 32768))
                 (repeat 0xFF (Z.to_nat 32768) ++ [0xFF]) session0
  = (Raise (AssertionError (Some "Address overflow, too much data"%string)),
     session0) /\
  reports (trace (snd (snd
    (BbEeProg.write (repeat 0xFF (Z.to_nat 32768))
                    (repeat 0xFF (Z.to_nat 32768) ++ [0xFF]) session0))))
  = [].
Proof.
  assert (H2 : BbEeProg.write (repeat 0xFF (Z.to_nat 32768))
                 (repeat 0xFF (Z.to_nat 32768) ++ [0xFF]) session0
               = (Raise (AssertionError (Some "Address overflow, too much data"%string)),
                  session0)).
  { replace (Z.to_nat 32768) with (S (Z.to_nat 32767)) by lia.
    cbn [repeat]. set (data := repeat 0xFF (Z.to_nat 32767)).
    assert (Hd : Z.of_nat (length data) + 1 = 32768)
      by (unfold data; rewrite repeat_length; lia).
    unfold BbEeProg.write. unfold bind at 1.
    cbn [app BbEeProg.zip_longest BbEeProg.for_loop].
    unfold bind at 1. cbn [assert Z.ltb Z.compare Z.pow Z.pow_pos Pos.iter Z.mul Pos.mul].
    unfold ret at 1.
    unfold BbEeProg.loop_body. cbn [BbEeProg.py_eq]. rewrite Z.eqb_refl.
    cbn [BbEeProg.last_chunk_was_old BbEeProg.last_chunk_start BbEeProg.addr negb
         Z.eqb BbEeProg.when].
    unfold bind at 1. unfold bind at 1. unfold ret at 1. unfold ret at 1.
    change (0 + 1) with 1.
    rewrite (for_loop_unchanged_overflow data [0xFF] 1
               {| BbEeProg.last_chunk_was_old := true;
                  BbEeProg.last_chunk_start := 0;
                  BbEeProg.addr := Some 0 |} session0
               ltac:(lia) Hd ltac:(discriminate) eq_refl).
    reflexivity. }
  split; [reflexivity|]. split; [discriminate|]. split; [exact H2|].
  rewrite H2. reflexivity.
Qed.

(** C9, as the code has it.  With empty data and empty (or no) old data
    the loop body never runs, the final report reads the loop variable
    [addr] that was never bound, and [write] fails with
    [UnboundLocalError] without any report and without touching the
    programmer or the world.  With empty data and any old data no byte is
    written: the programmer is unchanged, nothing is sent and
    [write_byte] is not called. *)
Theorem C9_empty_data :
  (forall st : BbEeProg.t * World,
      BbEeProg.write [] [] st = (Raise (UnboundLocalError "addr"), st)) /\
  (forall (old_data : list Z) (st : BbEeProg.t * World),
      exists r w',
        BbEeProg.write [] old_data st = (r, (fst st, w')) /\
        wire w' = wire (snd st) /\
        byte_writes (trace w') = byte_writes (trace (snd st))).
Proof.
  split.
  - intros st. reflexivity.
  - intros [|o old_data] [p w].
    + exists (Raise (UnboundLocalError "addr")), w. repeat split.
    + exists (Ok tt), (emit (Print (Wrote 0 0 1)) w). split; [reflexivity|].
      split; [reflexivity|]. cbn [emit trace]. rewrite byte_writes_app.
      apply app_nil_r.
Qed.

(** C9 as stated fails for old data that is not empty: the loop body runs
    once (and breaks), [addr] is bound to 0, and [write] returns normally
    after a report. *)
Lemma C9_counterexample :
  BbEeProg.write [] [7] session0
  = (Ok tt, (fst session0, emit (Print (Wrote 0 0 1)) (snd session0))) /\
  fst (BbEeProg.write [] [7] session0) <> Raise (UnboundLocalError "addr") /\
  reports (trace (snd (snd (BbEeProg.write [] [7] session0)))) = [Wrote 0 0 1].
Proof.
  split; [reflexivity|]. split; [discriminate|reflexivity].
Qed.

(** * Further properties of the code *)

(** ** [SN74LV8153._protocol] *)

(** X1.  The two telegrams carry what the layout comment says: for a chip
    address in [0,8) and a value in [0,256), both telegrams have the
    start bit set and the chip address in bits 1-3, the first has the low
    nibble and the second the high nibble of the value in bits 4-7; so
    the pair determines address and value. *)
Theorem X1_protocol_layout (addr value : Z) :
  0 <= addr < 8 -> 0 <= value < 256 ->
  exists lo hi,
    SN74LV8153._protocol addr value = Ok [lo; hi] /\
    telegram_start lo = true /\ telegram_start hi = true /\
    telegram_chip lo = addr /\ telegram_chip hi = addr /\
    telegram_nibble lo = value mod 16 /\ telegram_nibble hi = value / 16 /\
    telegram_nibble lo + 16 * telegram_nibble hi = value.
Proof.
  intros Ha Hv.
  exists (low_nibble addr value), (high_nibble addr value).
  split; [apply protocol_ok; assumption|].
  assert (H : forallb (fun a => forallb (fun v =>
                telegram_start (low_nibble a v)
                && telegram_start (high_nibble a v)
                && (telegram_chip (low_nibble a v) =? a)
                && (telegram_chip (high_nibble a v) =? a)
                && (telegram_nibble (low_nibble a v) =? v mod 16)
                && (telegram_nibble (high_nibble a v) =? v / 16))
              (upto 256)) (upto 8) = true) by (vm_compute; reflexivity).
  rewrite forallb_forall in H.
  specialize (H addr (in_upto 8 addr Ha)).
  rewrite forallb_forall in H.
  specialize (H value (in_upto 256 value Hv)).
  repeat (apply andb_true_iff in H; destruct H as [H ?]).
  repeat match goal with E : (_ =? _) = true |- _ => apply Z.eqb_eq in E end.
  repeat split; try assumption.
  replace (telegram_nibble (low_nibble addr value)) with (value mod 16) by auto.
  replace (telegram_nibble (high_nibble addr value)) with (value / 16) by auto.
  pose proof (Z.div_mod value 16 ltac:(lia)). lia.
Qed.

Lemma X1_witness :
  (0 <= 5 < 8 /\ 0 <= 0xAB < 256) /\
  exists lo hi,
    SN74LV8153._protocol 5 0xAB = Ok [lo; hi] /\
    telegram_start lo = true /\ telegram_start hi = true /\
    telegram_chip lo = 5 /\ telegram_chip hi = 5 /\
    telegram_nibble lo = 0xAB mod 16 /\ telegram_nibble hi = 0xAB / 16 /\
    telegram_nibble lo + 16 * telegram_nibble hi = 0xAB.
Proof.
  split; [lia|]. apply (X1_protocol_layout 5 0xAB); lia.
Defined.

Lemma lor_ge_256 (a b : Z) : 256 <= a -> 0 <= b -> 256 <= Z.lor a b.
Proof.
  intros Ha Hb.
  assert (Hl : 8 <= Z.log2 (Z.lor a b)).
  { rewrite Z.log2_lor by lia.
    assert (8 <= Z.log2 a) by (apply (Z.log2_le_pow2 a 8); lia). lia. }
  assert (H0 : 0 <= Z.lor a b) by (apply Z.lor_nonneg; lia).
  destruct (Z.eq_dec (Z.lor a b) 0) as [E|E]; [rewrite E in Hl; cbn in Hl; lia|].
  apply (Z.log2_le_pow2 (Z.lor a b) 8); lia.
Qed.

(** X2.  For a chip address in [0,8), [_protocol] accepts exactly the
    values in [0,256): any other integer makes [bytes(...)] raise
    [ValueError] (the high-nibble telegram does not fit a byte). *)
Theorem X2_protocol_domain (addr value : Z) :
  0 <= addr < 8 ->
  (0 <= value < 256 ->
   exists lo hi, SN74LV8153._protocol addr value = Ok [lo; hi]) /\
  (value < 0 \/ 256 <= value ->
   SN74LV8153._protocol addr value = Raise ValueError).
Proof.
  intros Ha. split.
  - intros Hv. eexists _, _. apply protocol_ok; assumption.
  - intros Hv. unfold SN74LV8153._protocol, SN74LV8153.bytes.
    fold (low_nibble addr value). fold (high_nibble addr value).
    cbn [forallb]. fold (is_byte (low_nibble addr value)).
    fold (is_byte (high_nibble addr value)).
    assert (Hh : is_byte (high_nibble addr value) = false).
    { unfold is_byte, high_nibble. destruct Hv as [Hn|Hp].
      - apply andb_false_iff. left. apply Z.leb_gt.
        apply Z.lor_neg. left. apply Z.lor_neg. left.
        apply Z.shiftl_neg. apply Z.shiftr_neg. exact Hn.
      - apply andb_false_iff. right. apply Z.ltb_ge.
        apply lor_ge_256; [|lia]. apply lor_ge_256.
        + rewrite Z.shiftl_mul_pow2, Z.shiftr_div_pow2 by lia.
          change (2 ^ 4) with 16.
          assert (16 <= value / 16) by (apply Z.div_le_lower_bound; lia). lia.
        + apply Z.shiftl_nonneg. lia. }
    rewrite Hh, andb_false_r. reflexivity.
Qed.

Lemma X2_witness :
  (0 <= 2 < 8 /\ 0 <= 0x7F < 256 /\ (-1 < 0 \/ 256 <= -1)) /\
  (exists lo hi, SN74LV8153._protocol 2 0x7F = Ok [lo; hi]) /\
  SN74LV8153._protocol 2 (-1) = Raise ValueError.
Proof.
  split; [lia|]. split.
  - apply (proj1 (X2_protocol_domain 2 0x7F ltac:(lia))). lia.
  - apply (proj2 (X2_protocol_domain 2 (-1) ltac:(lia))). left. lia.
Defined.

(** ** [SN74LV8153.write] and [SN74LV8153.__init__] *)

Lemma mask_mod (value : Z) : Z.land value 0xFF = value mod 256.
Proof. change 0xFF with (Z.ones 8). rewrite Z.land_ones by lia. reflexivity. Qed.

Lemma chip_world_clock c value w :
  0 <= telegram_us w -> clock w <= clock (chip_world c value w).
Proof. unfold chip_world. destruct (_ =? _); cbn; lia. Qed.

Lemma chip_world_telegram_us c value w :
  telegram_us (chip_world c value w) = telegram_us w.
Proof. unfold chip_world. destruct (_ =? _); reflexivity. Qed.

(** X3.  On a chip with an address in [0,8), [write] never raises,
    whatever integer it is given (negative or above 255 alike), and only
    the low 8 bits of the value matter: [write(value)] and
    [write(value mod 256)] leave the same chip state, send the same bytes
    and take the same time; the value the chip remembers is
    [value mod 256]. *)
Theorem X3_write_masks_value (c : SN74LV8153.t) (value : Z) (w : World) :
  valid_chip c ->
  exists c' w1 w2,
    SN74LV8153.write value (c, w) = (Ok tt, (c', w1)) /\
    SN74LV8153.write (value mod 256) (c, w) = (Ok tt, (c', w2)) /\
    wire w1 = wire w2 /\ clock w1 = clock w2 /\
    SN74LV8153._addr c' = SN74LV8153._addr c /\
    SN74LV8153._last_value c' = value mod 256.
Proof.
  intros Hc.
  assert (Hm : Z.land (value mod 256) 0xFF = Z.land value 0xFF).
  { rewrite !mask_mod. apply Z.mod_mod. lia. }
  exists (latched c value), (chip_world c value w), (chip_world c (value mod 256) w).
  split; [apply chip_write_ok; exact Hc|]. split.
  - rewrite (chip_write_ok c (value mod 256) w Hc). unfold latched.
    rewrite Hm. reflexivity.
  - split; [rewrite !chip_world_wire; unfold sent; rewrite Hm; reflexivity|].
    split; [unfold chip_world, sent; rewrite Hm; destruct (_ =? _); reflexivity|].
    split; [reflexivity|]. cbn. apply mask_mod.
Qed.

Lemma X3_witness :
  valid_chip holding5 /\
  exists c' w1 w2,
    SN74LV8153.write (-251) (holding5, world0 833) = (Ok tt, (c', w1)) /\
    SN74LV8153.write ((-251) mod 256) (holding5, world0 833) = (Ok tt, (c', w2)) /\
    wire w1 = wire w2 /\ clock w1 = clock w2 /\
    SN74LV8153._addr c' = SN74LV8153._addr holding5 /\
    SN74LV8153._last_value c' = (-251) mod 256.
Proof.
  assert (H : valid_chip holding5) by (unfold valid_chip; simpl; lia).
  split; [exact H|].
  exact (X3_write_masks_value holding5 (-251) (world0 833) H).
Defined.

Lemma init_valid serial addr c :
  SN74LV8153.__init__ serial addr = Ok c ->
  valid_chip c /\ SN74LV8153._addr c = addr /\ SN74LV8153._last_value c = -1 /\
  SN74LV8153.MIN_BAUD_RATE <= baudrate serial <= SN74LV8153.MAX_BAUD_RATE.
Proof.
  unfold SN74LV8153.__init__, valid_chip.
  destruct ((SN74LV8153.MIN_BAUD_RATE <=? baudrate serial)
            && (baudrate serial <=? SN74LV8153.MAX_BAUD_RATE)) eqn:B;
    [|discriminate].
  destruct ((0 <=? addr) && (addr <? 8)) eqn:A; [|discriminate].
  intros H. inversion H; subst; clear H. cbn.
  apply andb_true_iff in A. destruct A as [A1 A2].
  apply andb_true_iff in B. destruct B as [B1 B2].
  apply Z.leb_le in A1, B1, B2. apply Z.ltb_lt in A2. lia.
Qed.

(** X4.  The first [write] on a freshly constructed chip is never
    suppressed: whatever the value, it sends the telegram pair of
    [value mod 256] (the initial last value -1 equals no masked value). *)
Theorem X4_first_write_sends (serial : World) (addr : Z) (c : SN74LV8153.t)
    (value : Z) (w : World) :
  SN74LV8153.__init__ serial addr = Ok c ->
  exists c' w' lo hi,
    SN74LV8153.write value (c, w) = (Ok tt, (c', w')) /\
    SN74LV8153._protocol addr (value mod 256) = Ok [lo; hi] /\
    wire w' = wire w ++ [lo; hi] /\
    SN74LV8153._last_value c' = value mod 256.
Proof.
  intros Hi. destruct (init_valid serial addr c Hi) as (Hc & Ha & Hl & _).
  pose proof (mask_is_byte value) as Hb.
  exists (latched c value), (chip_world c value w),
         (low_nibble addr (value mod 256)), (high_nibble addr (value mod 256)).
  split; [apply chip_write_ok; exact Hc|].
  unfold valid_chip in Hc. rewrite Ha in Hc.
  rewrite <- mask_mod.
  split; [apply protocol_ok; assumption|].
  split; [|reflexivity].
  rewrite chip_world_wire. unfold sent. rewrite Hl, Ha.
  destruct (Z.land value 0xFF =? -1) eqn:E; [|reflexivity].
  apply Z.eqb_eq in E. lia.
Qed.

Lemma X4_witness :
  SN74LV8153.__init__ (snd session0) 2 = Ok {| SN74LV8153._addr := 2; SN74LV8153._last_value := -1 |} /\
  exists c' w' lo hi,
    SN74LV8153.write (-1) ({| SN74LV8153._addr := 2; SN74LV8153._last_value := -1 |}, world0 833)
    = (Ok tt, (c', w')) /\
    SN74LV8153._protocol 2 ((-1) mod 256) = Ok [lo; hi] /\
    wire w' = wire (world0 833) ++ [lo; hi] /\
    SN74LV8153._last_value c' = (-1) mod 256.
Proof.
  assert (H : SN74LV8153.__init__ (snd session0) 2
              = Ok {| SN74LV8153._addr := 2; SN74LV8153._last_value := -1 |})
    by reflexivity.
  split; [exact H|].
  exact (X4_first_write_sends (snd session0) 2 _ (-1) (world0 833) H).
Defined.

(** X5.  Two [write] calls in a row on a chip with an address in [0,8),
    whatever the chip held before: the second call sends its telegram
    pair exactly when its value differs from the first one modulo 256,
    and sends nothing otherwise. *)
Theorem X5_write_after_write (c : SN74LV8153.t) (v u : Z) (w : World) :
  valid_chip c ->
  exists c1 w1 c2 w2,
    SN74LV8153.write v (c, w) = (Ok tt, (c1, w1)) /\
    SN74LV8153.write u (c1, w1) = (Ok tt, (c2, w2)) /\
    (u mod 256 = v mod 256 -> wire w2 = wire w1) /\
    (u mod 256 <> v mod 256 ->
     exists lo hi,
       SN74LV8153._protocol (SN74LV8153._addr c) (u mod 256) = Ok [lo; hi] /\
       wire w2 = wire w1 ++ [lo; hi]).
Proof.
  intros Hc.
  exists (latched c v), (chip_world c v w),
         (latched (latched c v) u), (chip_world (latched c v) u (chip_world c v w)).
  split; [apply chip_write_ok; exact Hc|].
  split; [apply chip_write_ok; exact Hc|].
  rewrite chip_world_wire. unfold sent. cbn [latched SN74LV8153._last_value SN74LV8153._addr].
  rewrite !mask_mod. split.
  - intros E. rewrite E, Z.eqb_refl. apply app_nil_r.
  - intros E. apply Z.eqb_neq in E. rewrite E.
    eexists _, _. split; [|reflexivity].
    apply protocol_ok; [exact Hc|]. apply Z.mod_pos_bound. lia.
Qed.

Lemma X5_witness :
  valid_chip holding5 /\
  exists c1 w1 c2 w2,
    SN74LV8153.write 0x105 (holding5, world0 833) = (Ok tt, (c1, w1)) /\
    SN74LV8153.write 6 (c1, w1) = (Ok tt, (c2, w2)) /\
    (6 mod 256 = 0x105 mod 256 -> wire w2 = wire w1) /\
    (6 mod 256 <> 0x105 mod 256 ->
     exists lo hi,
       SN74LV8153._protocol (SN74LV8153._addr holding5) (6 mod 256) = Ok [lo; hi] /\
       wire w2 = wire w1 ++ [lo; hi]).
Proof.
  assert (H : valid_chip holding5) by (unfold valid_chip; simpl; lia).
  split; [exact H|].
  exact (X5_write_after_write holding5 0x105 6 (world0 833) H).
Defined.

(** ** [BbEeProg.__enter__] *)

(** X6.  [__enter__] succeeds on every world: it sets the port to 24000
    baud, sends exactly one telegram pair, 0x03 0x83 (chip 1, value 0x80:
    nWE high, address bits low), makes no other chip write, and returns a
    programmer wired to chips 0, 1, 2 whose address and data chips have
    never been written and whose last-write timestamp is the clock at
    return. *)
Theorem X6_enter (w : World) :
  exists p w',
    BbEeProg.__enter__ w = (Ok p, w') /\
    wired p /\
    baudrate w' = 24000 /\
    wire w' = wire w ++ [0x03; 0x83] /\
    trace w' = trace w ++ [(clock w, ChanWrite 1 0x80)] /\
    clock w' = clock w + telegram_us w /\
    SN74LV8153._last_value (BbEeProg._addr_lo p) = -1 /\
    SN74LV8153._last_value (BbEeProg._addr_hi p) = 0x80 /\
    SN74LV8153._last_value (BbEeProg._data p) = -1 /\
    BbEeProg._dt_last_write p = clock w'.
Proof.
  unfold BbEeProg.__enter__. cbn.
  eexists _, _. split; [reflexivity|]. repeat split.
Qed.

(** ** [BbEeProg.write_byte] *)

Lemma hi_idle_nonneg (addr : Z) :
  0 <= addr <= 0x7FFF ->
  0 <= addr / 256 < 128 /\ Z.shiftr addr 8 = addr / 256 /\
  hi_idle addr = addr / 256 + 128.
Proof.
  intros Ha.
  assert (Hs : Z.shiftr addr 8 = addr / 256)
    by (rewrite Z.shiftr_div_pow2 by lia; reflexivity).
  assert (Hh : 0 <= addr / 256 < 128).
  { split; [apply Z.div_pos; lia|apply Z.div_lt_upper_bound; lia]. }
  split; [exact Hh|]. split; [exact Hs|].
  unfold hi_idle. rewrite Hs.
  assert (H : forallb (fun h => Z.lor h BbEeProg.ADDR_HI_WRITE_DISABLE_BIT =? h + 128)
                      (upto 128) = true) by (vm_compute; reflexivity).
  rewrite forallb_forall in H.
  apply Z.eqb_eq. apply H. apply in_upto. exact Hh.
Qed.

Lemma settled_wire addr byte p w :
  wire (settled addr byte p w)
  = wire w ++ sent (BbEeProg._data p) byte
    ++ sent (BbEeProg._addr_lo p) (Z.land addr 0xFF)
    ++ sent (BbEeProg._addr_hi p) (hi_idle addr).
Proof.
  unfold settled. rewrite !chip_world_wire. cbn [emit wire].
  rewrite <- !app_assoc. reflexivity.
Qed.

Lemma waited_wire p w : wire (waited p w) = wire w.
Proof. unfold waited. destruct (0 <? delay_us p w); reflexivity. Qed.

Lemma sent_length c value : (length (sent c value) <= 2)%nat.
Proof. unfold sent. destruct (_ =? _); cbn; lia. Qed.

(** X7.  For an address in [0, 0x7FFF] the write strobe is never
    suppressed: whatever the three chips held before, [write_byte] ends
    by sending the telegram pair of [addr >> 8] (nWE low) and then the
    pair of [(addr >> 8) | 0x80] (nWE high) to chip 1, after at most
    three set-up pairs.  Afterwards the chips hold [byte mod 256], the
    low address byte and the high address byte with nWE high, so the
    address on the lines is [addr]. *)
Theorem X7_strobe_always_sent (addr byte : Z) (p : BbEeProg.t) (w : World) :
  wired p -> 0 <= addr <= 0x7FFF ->
  exists p' w' setup,
    BbEeProg.write_byte addr byte (p, w) = (Ok tt, (p', w')) /\
    wire w'
    = wire w ++ setup
      ++ [low_nibble 1 (addr / 256); high_nibble 1 (addr / 256);
          low_nibble 1 (addr / 256 + 128); high_nibble 1 (addr / 256 + 128)] /\
    (length setup <= 6)%nat /\
    SN74LV8153._last_value (BbEeProg._data p') = byte mod 256 /\
    SN74LV8153._last_value (BbEeProg._addr_lo p')
    + 256 * (SN74LV8153._last_value (BbEeProg._addr_hi p') - 128) = addr.
Proof.
  intros Hp Ha. destruct (hi_idle_nonneg addr Ha) as (Hh & Hs & Hi).
  destruct Hp as (Hlo & Hhi & Hdat).
  exists (byte_prog addr byte p w), (byte_world addr byte p w),
    (sent (BbEeProg._data p) byte
     ++ sent (BbEeProg._addr_lo p) (Z.land addr 0xFF)
     ++ sent (BbEeProg._addr_hi p) (hi_idle addr)).
  split; [apply write_byte_ok; [repeat split; assumption|lia]|].
  assert (M1 : Z.land (addr / 256) 0xFF = addr / 256) by (apply mask_of_byte; lia).
  assert (M2 : Z.land (addr / 256 + 128) 0xFF = addr / 256 + 128)
    by (apply mask_of_byte; lia).
  split; [|split].
  - unfold byte_world, strobed. rewrite !chip_world_wire, waited_wire, settled_wire.
    rewrite Hs, Hi. unfold sent at 4 5.
    cbn [latched SN74LV8153._last_value SN74LV8153._addr].
    rewrite Hhi, M1, M2.
    replace (addr / 256 =? addr / 256 + 128) with false by (symmetry; apply Z.eqb_neq; lia).
    replace (addr / 256 + 128 =? addr / 256) with false by (symmetry; apply Z.eqb_neq; lia).
    rewrite <- !app_assoc. reflexivity.
  - rewrite !length_app.
    pose proof (sent_length (BbEeProg._data p) byte).
    pose proof (sent_length (BbEeProg._addr_lo p) (Z.land addr 0xFF)).
    pose proof (sent_length (BbEeProg._addr_hi p) (hi_idle addr)). lia.
  - cbn [byte_prog BbEeProg._data BbEeProg._addr_lo BbEeProg._addr_hi latched
         SN74LV8153._last_value].
    rewrite Hi, M2, !mask_mod. split; [reflexivity|].
    rewrite Z.mod_mod by lia.
    pose proof (Z.div_mod addr 256 ltac:(lia)). lia.
Qed.

Lemma X7_witness :
  (wired (fst session0) /\ 0 <= 0x1234 <= 0x7FFF) /\
  exists p' w' setup,
    BbEeProg.write_byte 0x1234 0x56 (fst session0, snd session0) = (Ok tt, (p', w')) /\
    wire w'
    = wire (snd session0) ++ setup
      ++ [low_nibble 1 (0x1234 / 256); high_nibble 1 (0x1234 / 256);
          low_nibble 1 (0x1234 / 256 + 128); high_nibble 1 (0x1234 / 256 + 128)] /\
    (length setup <= 6)%nat /\
    SN74LV8153._last_value (BbEeProg._data p') = 0x56 mod 256 /\
    SN74LV8153._last_value (BbEeProg._addr_lo p')
    + 256 * (SN74LV8153._last_value (BbEeProg._addr_hi p') - 128) = 0x1234.
Proof.
  split; [split; [repeat split|lia]|].
  apply (X7_strobe_always_sent 0x1234 0x56 (fst session0) (snd session0)).
  - repeat split.
  - lia.
Defined.

Lemma hi_idle_negative (addr : Z) :
  -32768 <= addr < 0 -> hi_idle addr = Z.shiftr addr 8.
Proof.
  intros Ha. unfold hi_idle.
  assert (Hh : 0 <= Z.shiftr addr 8 + 128 < 128).
  { rewrite Z.shiftr_div_pow2 by lia. change (2 ^ 8) with 256.
    assert (-128 <= addr / 256) by (apply Z.div_le_lower_bound; lia).
    assert (addr / 256 < 0) by (apply Z.div_lt_upper_bound; lia). lia. }
  assert (H : forallb (fun k => Z.lor (k - 128) BbEeProg.ADDR_HI_WRITE_DISABLE_BIT
                                 =? k - 128) (upto 128) = true)
    by (vm_compute; reflexivity).
  rewrite forallb_forall in H.
  specialize (H _ (in_upto 128 _ Hh)). apply Z.eqb_eq in H.
  replace (Z.shiftr addr 8 + 128 - 128) with (Z.shiftr addr 8) in H by lia.
  exact H.
Qed.

(** X8.  The assertion of [write_byte] only bounds the address from
    above.  A negative address down to -32768 is accepted, and the call
    returns normally, but both strobe writes are suppressed (bit 7 of
    [addr >> 8] is already set, so nWE never goes low): beyond the three
    set-up writes nothing is sent, and no byte is programmed. *)
Theorem X8_negative_address_no_strobe (addr byte : Z) (p : BbEeProg.t) (w : World) :
  wired p -> -32768 <= addr < 0 ->
  exists p' w',
    BbEeProg.write_byte addr byte (p, w) = (Ok tt, (p', w')) /\
    wire w'
    = wire w ++ sent (BbEeProg._data p) byte
      ++ sent (BbEeProg._addr_lo p) (Z.land addr 0xFF)
      ++ sent (BbEeProg._addr_hi p)
              (Z.lor (Z.shiftr addr 8) BbEeProg.ADDR_HI_WRITE_DISABLE_BIT) /\
    Z.testbit (Z.shiftr addr 8) 7 = true.
Proof.
  intros Hp Ha. pose proof (hi_idle_negative addr Ha) as Hi.
  exists (byte_prog addr byte p w), (byte_world addr byte p w).
  split; [apply write_byte_ok; [exact Hp|lia]|]. split.
  - unfold byte_world, strobed. rewrite !chip_world_wire, waited_wire, settled_wire.
    fold (hi_idle addr). rewrite Hi.
    unfold sent at 4 5. cbn [latched SN74LV8153._last_value].
    rewrite !Z.eqb_refl. rewrite !app_nil_r, <- ?app_assoc. reflexivity.
  - rewrite <- Hi. unfold hi_idle. rewrite Z.lor_spec.
    change (Z.testbit BbEeProg.ADDR_HI_WRITE_DISABLE_BIT 7) with true.
    apply orb_true_r.
Qed.

Lemma X8_witness :
  (wired (fst session0) /\ -32768 <= -1 < 0) /\
  exists p' w',
    BbEeProg.write_byte (-1) 0x56 (fst session0, snd session0) = (Ok tt, (p', w')) /\
    wire w'
    = wire (snd session0) ++ sent (BbEeProg._data (fst session0)) 0x56
      ++ sent (BbEeProg._addr_lo (fst session0)) (Z.land (-1) 0xFF)
      ++ sent (BbEeProg._addr_hi (fst session0))
              (Z.lor (Z.shiftr (-1) 8) BbEeProg.ADDR_HI_WRITE_DISABLE_BIT) /\
    Z.testbit (Z.shiftr (-1) 8) 7 = true.
Proof.
  split; [split; [repeat split|lia]|].
  apply (X8_negative_address_no_strobe (-1) 0x56 (fst session0) (snd session0)).
  - repeat split.
  - lia.
Defined.

Lemma settled_telegram_us addr byte p w :
  telegram_us (settled addr byte p w) = telegram_us w.
Proof. unfold settled. rewrite !chip_world_telegram_us. reflexivity. Qed.

Lemma settled_clock addr byte p w :
  0 <= telegram_us w -> clock w <= clock (settled addr byte p w).
Proof.
  intros H. unfold settled.
  set (w0 := emit (ByteWrite addr byte) w).
  assert (H0 : 0 <= telegram_us w0) by exact H.
  pose proof (chip_world_clock (BbEeProg._data p) byte w0 H0) as C1.
  set (w1 := chip_world (BbEeProg._data p) byte w0) in *.
  assert (H1 : 0 <= telegram_us w1)
    by (unfold w1; rewrite chip_world_telegram_us; exact H0).
  pose proof (chip_world_clock (BbEeProg._addr_lo p) (Z.land addr 0xFF) w1 H1) as C2.
  set (w2 := chip_world (BbEeProg._addr_lo p) (Z.land addr 0xFF) w1) in *.
  assert (H2 : 0 <= telegram_us w2)
    by (unfold w2; rewrite chip_world_telegram_us; exact H1).
  pose proof (chip_world_clock (BbEeProg._addr_hi p) (hi_idle addr) w2 H2) as C3.
  change (clock w0) with (clock w) in C1. lia.
Qed.

Lemma waited_telegram_us p w : telegram_us (waited p w) = telegram_us w.
Proof. unfold waited. destruct (0 <? delay_us p w); reflexivity. Qed.

Lemma byte_world_telegram_us addr byte p w :
  telegram_us (byte_world addr byte p w) = telegram_us w.
Proof.
  unfold byte_world, strobed.
  rewrite !chip_world_telegram_us, waited_telegram_us, settled_telegram_us.
  reflexivity.
Qed.

Lemma byte_world_clock addr byte p w :
  0 <= telegram_us w ->
  clock w <= clock (byte_world addr byte p w) /\
  BbEeProg._dt_last_write p + 15000 <= clock (byte_world addr byte p w).
Proof.
  intros H. unfold byte_world, strobed.
  pose proof (settled_clock addr byte p w H) as Cs.
  pose proof (waited_clock p (settled addr byte p w)) as Cw.
  assert (Cw' : clock (settled addr byte p w) <= clock (waited p (settled addr byte p w))).
  { unfold waited. destruct (0 <? delay_us p (settled addr byte p w)) eqn:D; [|lia].
    apply Z.ltb_lt in D. cbn. lia. }
  set (w3 := waited p (settled addr byte p w)) in *.
  assert (H3 : 0 <= telegram_us w3)
    by (unfold w3; rewrite waited_telegram_us, settled_telegram_us; exact H).
  set (hi := latched (BbEeProg._addr_hi p) (hi_idle addr)).
  pose proof (chip_world_clock hi (Z.shiftr addr 8) w3 H3) as C4.
  set (w4 := chip_world hi (Z.shiftr addr 8) w3) in *.
  assert (H4 : 0 <= telegram_us w4)
    by (unfold w4; rewrite chip_world_telegram_us; exact H3).
  pose proof (chip_world_clock (latched hi (Z.shiftr addr 8)) (hi_idle addr) w4 H4) as C5.
  lia.
Qed.

(** X9.  [write_byte] never sleeps longer than the write cycle: when the
    clock has not run backwards since the last write and sending takes no
    negative time, every sleep of the call lasts more than 0 and at most
    15000 microseconds; and when the write cycle has already elapsed at
    the call, it does not sleep at all. *)
Theorem X9_sleep_bounded (addr byte : Z) (p : BbEeProg.t) (w : World) :
  wired p -> addr <= 0x7FFF ->
  0 <= telegram_us w -> BbEeProg._dt_last_write p <= clock w ->
  exists p' w' new,
    BbEeProg.write_byte addr byte (p, w) = (Ok tt, (p', w')) /\
    trace w' = trace w ++ new /\
    (forall t d, In (t, Sleep d) new -> 0 < d <= 15000) /\
    (BbEeProg._dt_last_write p + 15000 <= clock w ->
     forall t d, ~ In (t, Sleep d) new).
Proof.
  intros Hp Ha Htx Hdt.
  destruct (byte_world_trace addr byte p w Hp)
    as (t_lo & t_hi & t_now & t_release & Hnow & E).
  pose proof (settled_clock addr byte p w Htx) as Cs.
  exists (byte_prog addr byte p w), (byte_world addr byte p w). eexists.
  split; [apply write_byte_ok; assumption|]. split; [exact E|].
  assert (Hin : forall t d,
             In (t, Sleep d)
                ([(clock w, ByteWrite addr byte); (clock w, ChanWrite 2 byte);
                  (t_lo, ChanWrite 0 (Z.land addr 0xFF));
                  (t_hi, ChanWrite 1 (hi_idle addr))]
                 ++ (if 0 <? delay_us p (settled addr byte p w)
                     then [(t_now, Sleep (delay_us p (settled addr byte p w)))]
                     else [])
                 ++ [(clock (waited p (settled addr byte p w)),
                      ChanWrite 1 (Z.shiftr addr 8));
                     (t_release, ChanWrite 1 (hi_idle addr))]) ->
             0 < delay_us p (settled addr byte p w) /\
             d = delay_us p (settled addr byte p w)).
  { intros t d H. apply in_app_or in H. destruct H as [H|H].
    - cbn in H. repeat (destruct H as [H|H]; [discriminate H|]). destruct H.
    - apply in_app_or in H. destruct H as [H|H].
      + destruct (0 <? delay_us p (settled addr byte p w)) eqn:D; [|destruct H].
        destruct H as [H|[]]. inversion H; subst. apply Z.ltb_lt in D. auto.
      + cbn in H. repeat (destruct H as [H|H]; [discriminate H|]). destruct H. }
  split.
  - intros t d H. destruct (Hin t d H) as [Hpos ->]. unfold delay_us in *. lia.
  - intros Hlate t d H. destruct (Hin t d H) as [Hpos _]. unfold delay_us in *. lia.
Qed.

Lemma X9_witness :
  (wired (fst session0) /\ 0x1234 <= 0x7FFF /\ 0 <= telegram_us (snd session0) /\
   BbEeProg._dt_last_write (fst session0) <= clock (snd session0)) /\
  exists p' w' new,
    BbEeProg.write_byte 0x1234 0x56 (fst session0, snd session0) = (Ok tt, (p', w')) /\
    trace w' = trace (snd session0) ++ new /\
    (forall t d, In (t, Sleep d) new -> 0 < d <= 15000) /\
    (BbEeProg._dt_last_write (fst session0) + 15000 <= clock (snd session0) ->
     forall t d, ~ In (t, Sleep d) new).
Proof.
  split; [split; [repeat split|simpl; lia]|].
  apply (X9_sleep_bounded 0x1234 0x56 (fst session0) (snd session0)).
  - repeat split.
  - lia.
  - simpl. lia.
  - simpl. lia.
Defined.

(** X10.  Completed byte writes are at least one write cycle apart: when
    sending takes no negative time, [write_byte] returns with the clock
    not before the call, the new last-write timestamp is the clock at
    return, and it is at least 15000 microseconds after the previous
    last-write timestamp. *)
Theorem X10_write_cycle_advances (addr byte : Z) (p : BbEeProg.t) (w : World) :
  wired p -> addr <= 0x7FFF -> 0 <= telegram_us w ->
  exists p' w',
    BbEeProg.write_byte addr byte (p, w) = (Ok tt, (p', w')) /\
    BbEeProg._dt_last_write p' = clock w' /\
    BbEeProg._dt_last_write p + 15000 <= BbEeProg._dt_last_write p' /\
    clock w <= clock w' /\
    telegram_us w' = telegram_us w.
Proof.
  intros Hp Ha Htx.
  exists (byte_prog addr byte p w), (byte_world addr byte p w).
  split; [apply write_byte_ok; assumption|].
  destruct (byte_world_clock addr byte p w Htx) as [C1 C2].
  split; [reflexivity|]. split; [exact C2|]. split; [exact C1|].
  apply byte_world_telegram_us.
Qed.

Lemma X10_witness :
  (wired (fst session0) /\ 0x1234 <= 0x7FFF /\ 0 <= telegram_us (snd session0)) /\
  exists p' w',
    BbEeProg.write_byte 0x1234 0x56 (fst session0, snd session0) = (Ok tt, (p', w')) /\
    BbEeProg._dt_last_write p' = clock w' /\
    BbEeProg._dt_last_write (fst session0) + 15000 <= BbEeProg._dt_last_write p' /\
    clock (snd session0) <= clock w' /\
    telegram_us w' = telegram_us (snd session0).
Proof.
  split; [split; [repeat split|simpl; lia]|].
  apply (X10_write_cycle_advances 0x1234 0x56 (fst session0) (snd session0)).
  - repeat split.
  - lia.
  - simpl. lia.
Defined.

(** ** [BbEeProg.write]: what every run keeps *)

(** Whatever holds before [write], is kept by every [write_byte] inside
    the address space and is kept by printing, holds after the loop,
    whether the loop returns or raises. *)
Lemma for_loop_keeps (Inv : BbEeProg.t * World -> Prop) :
  (forall a b p w, wired p -> a <= 0x7FFF -> Inv (p, w) ->
                   Inv (byte_prog a b p w, byte_world a b p w)) ->
  (forall r p w, Inv (p, w) -> Inv (p, emit (Print r) w)) ->
  forall items n l p w res p' w',
    wired p -> Inv (p, w) ->
    BbEeProg.for_loop items n l (p, w) = (res, (p', w')) ->
    wired p' /\ Inv (p', w').
Proof.
  intros Hbyte Hprint.
  induction items as [|[byte old_byte] items IH];
    intros n l p w res p' w' Hp Hi E.
  - cbn in E. inversion E; subst. split; assumption.
  - cbn [BbEeProg.for_loop] in E. unfold bind at 1, assert in E.
    destruct (n <? 2 ^ 15) eqn:Hn.
    2:{ cbn in E. inversion E; subst. split; assumption. }
    apply Z.ltb_lt in Hn. unfold ret at 1 in E.
    destruct byte as [byte|].
    2:{ cbn in E. inversion E; subst. split; assumption. }
    assert (Hn' : n <= 0x7FFF) by lia.
    unfold bind at 1 in E. unfold BbEeProg.loop_body in E.
    destruct (BbEeProg.py_eq byte old_byte).
    + destruct (negb _).
      * unfold bind at 1, BbEeProg.when in E. destruct (negb (n =? 0)).
        -- rewrite print_run in E. unfold ret at 1 in E.
           eapply IH; [exact Hp|apply Hprint; exact Hi|exact E].
        -- unfold ret at 1 2 in E. eapply IH; [exact Hp|exact Hi|exact E].
      * unfold ret at 1 in E. eapply IH; [exact Hp|exact Hi|exact E].
    + cbn [BbEeProg.last_chunk_was_old] in E.
      destruct (BbEeProg.last_chunk_was_old l).
      * unfold bind at 1 2 in E. rewrite print_run in E. unfold ret at 1 in E.
        unfold bind at 1 in E. rewrite (write_byte_ok _ _ _ _ Hp Hn') in E.
        unfold ret at 1 in E.
        eapply IH; [apply byte_prog_wired; exact Hp| |exact E].
        apply Hbyte; [exact Hp|exact Hn'|]. apply Hprint. exact Hi.
      * unfold bind at 1 in E. unfold ret at 1 in E.
        unfold bind at 1 in E. rewrite (write_byte_ok _ _ _ _ Hp Hn') in E.
        unfold ret at 1 in E.
        eapply IH; [apply byte_prog_wired; exact Hp| |exact E].
        apply Hbyte; [exact Hp|exact Hn'|exact Hi].
Qed.

Lemma write_keeps (Inv : BbEeProg.t * World -> Prop) :
  (forall a b p w, wired p -> a <= 0x7FFF -> Inv (p, w) ->
                   Inv (byte_prog a b p w, byte_world a b p w)) ->
  (forall r p w, Inv (p, w) -> Inv (p, emit (Print r) w)) ->
  forall data old_data p w res p' w',
    wired p -> Inv (p, w) ->
    BbEeProg.write data old_data (p, w) = (res, (p', w')) ->
    wired p' /\ Inv (p', w').
Proof.
  intros Hbyte Hprint data old_data p w res p' w' Hp Hi E.
  unfold BbEeProg.write in E. unfold bind at 1 in E.
  destruct (BbEeProg.for_loop _ 0 _ (p, w)) as [[l|e] [p1 w1]] eqn:El.
  - destruct (for_loop_keeps Inv Hbyte Hprint _ _ _ _ _ _ _ _ Hp Hi El) as [Hp1 Hi1].
    destruct (negb (BbEeProg.last_chunk_was_old l)).
    + destruct (BbEeProg.addr l); cbn in E; inversion E; subst;
        (split; [exact Hp1|]); [apply Hprint|]; exact Hi1.
    + destruct (BbEeProg.last_chunk_start l =? 0).
      * cbn in E. inversion E; subst. split; [exact Hp1|apply Hprint; exact Hi1].
      * destruct (BbEeProg.addr l); cbn in E; inversion E; subst;
          (split; [exact Hp1|]); [apply Hprint|]; exact Hi1.
  - inversion E; subst.
    exact (for_loop_keeps Inv Hbyte Hprint _ _ _ _ _ _ _ _ Hp Hi El).
Qed.

(** X11.  [write] never leaves nWE asserted and never rewires the
    programmer, however it ends: from a wired programmer whose
    high-address chip holds a value with bit 7 set (as after [__enter__]),
    the programmer is wired and bit 7 is set after [write], whether it
    returns, fails on the address overflow or fails on the unbound
    [addr]. *)
Theorem X11_write_keeps_nwe_released
    (data old_data : list Z) (p p' : BbEeProg.t) (w w' : World) (res : Result unit) :
  wired p ->
  Z.testbit (SN74LV8153._last_value (BbEeProg._addr_hi p)) 7 = true ->
  BbEeProg.write data old_data (p, w) = (res, (p', w')) ->
  wired p' /\
  Z.testbit (SN74LV8153._last_value (BbEeProg._addr_hi p')) 7 = true.
Proof.
  intros Hp Hb E.
  apply (write_keeps
           (fun st => Z.testbit (SN74LV8153._last_value (BbEeProg._addr_hi (fst st))) 7 = true))
    with (data := data) (old_data := old_data) (p := p) (w := w) (res := res) (w' := w');
    try assumption.
  - intros a b p0 w0 _ _ _. cbn. apply bit7_released.
  - intros r p0 w0 H. exact H.
Qed.

Lemma diff_run_eq :
  BbEeProg.write [1; 2; 3; 4] [1; 9; 3; 4] (fst session0, snd session0)
  = (fst diff_run, (fst (snd diff_run), snd (snd diff_run))).
Proof. vm_compute. reflexivity. Qed.

Lemma X11_witness :
  (wired (fst session0) /\
   Z.testbit (SN74LV8153._last_value (BbEeProg._addr_hi (fst session0))) 7 = true /\
   BbEeProg.write [1; 2; 3; 4] [1; 9; 3; 4] (fst session0, snd session0)
   = (fst diff_run, (fst (snd diff_run), snd (snd diff_run)))) /\
  wired (fst (snd diff_run)) /\
  Z.testbit (SN74LV8153._last_value (BbEeProg._addr_hi (fst (snd diff_run)))) 7 = true.
Proof.
  split; [split; [repeat split|split; [reflexivity|exact diff_run_eq]]|].
  apply (X11_write_keeps_nwe_released [1; 2; 3; 4] [1; 9; 3; 4]
           (fst session0) (fst (snd diff_run)) (snd session0) (snd (snd diff_run))
           (fst diff_run)).
  - repeat split.
  - reflexivity.
  - exact diff_run_eq.
Defined.

(** X12.  Flashing cannot go faster than the write cycle allows: when
    sending takes no negative time, the last-write timestamp after
    [write] (however it ends) is at least 15000 microseconds times the
    number of [write_byte] calls of the run after the last-write
    timestamp before it. *)
Theorem X12_write_takes_its_time
    (data old_data : list Z) (p p' : BbEeProg.t) (w w' : World) (res : Result unit) :
  wired p -> 0 <= telegram_us w ->
  BbEeProg.write data old_data (p, w) = (res, (p', w')) ->
  exists new,
    trace w' = trace w ++ new /\
    BbEeProg._dt_last_write p + 15000 * Z.of_nat (length (byte_writes new))
    <= BbEeProg._dt_last_write p'.
Proof.
  intros Hp Htx E.
  pose (Inv := fun st : BbEeProg.t * World =>
          telegram_us (snd st) = telegram_us w /\
          exists new,
            trace (snd st) = trace w ++ new /\
            BbEeProg._dt_last_write p + 15000 * Z.of_nat (length (byte_writes new))
            <= BbEeProg._dt_last_write (fst st)).
  assert (H : wired p' /\ Inv (p', w')).
  { apply (write_keeps Inv) with (data := data) (old_data := old_data)
      (p := p) (w := w) (res := res); try assumption.
    - intros a b p0 w0 Hp0 Ha (Ht & new & T & D). unfold Inv. cbn [fst snd] in *. split.
      + rewrite byte_world_telegram_us. exact Ht.
      + destruct (byte_world_new a b p0 w0 Hp0) as (new1 & T1 & B1 & _).
        exists (new ++ new1). split; [rewrite T1, T, app_assoc; reflexivity|].
        rewrite byte_writes_app, B1, length_app. cbn [length byte_prog BbEeProg._dt_last_write].
        destruct (byte_world_clock a b p0 w0 ltac:(lia)) as [_ C]. lia.
    - intros r p0 w0 (Ht & new & T & D). unfold Inv. cbn [fst snd] in *. split; [exact Ht|].
      exists (new ++ [(clock w0, Print r)]). split.
      + cbn [emit trace]. rewrite T, app_assoc. reflexivity.
      + rewrite byte_writes_app, length_app. cbn [byte_writes flat_map snd length app].
        lia.
    - unfold Inv. cbn [fst snd]. split; [reflexivity|]. exists [].
      rewrite app_nil_r. split; [reflexivity|]. cbn. lia. }
  destruct H as (_ & _ & new & T & D). exists new. split; assumption.
Qed.

Lemma X12_witness :
  (wired (fst session0) /\ 0 <= telegram_us (snd session0) /\
   BbEeProg.write [1; 2; 3; 4] [1; 9; 3; 4] (fst session0, snd session0)
   = (fst diff_run, (fst (snd diff_run), snd (snd diff_run)))) /\
  exists new,
    trace (snd (snd diff_run)) = trace (snd session0) ++ new /\
    BbEeProg._dt_last_write (fst session0)
    + 15000 * Z.of_nat (length (byte_writes new))
    <= BbEeProg._dt_last_write (fst (snd diff_run)).
Proof.
  split; [split; [repeat split|split; [simpl; lia|exact diff_run_eq]]|].
  apply (X12_write_takes_its_time [1; 2; 3; 4] [1; 9; 3; 4]
           (fst session0) (fst (snd diff_run)) (snd session0) (snd (snd diff_run))
           (fst diff_run)).
  - repeat split.
  - simpl. lia.
  - exact diff_run_eq.
Defined.

(** ** [BbEeProg.write]: which bytes are written *)

Lemma zip_longest_length : forall data old_data,
  length (BbEeProg.zip_longest data old_data)
  = Nat.max (length data) (length old_data).
Proof.
  induction data as [|b data IH]; intros old_data.
  - cbn. apply length_map.
  - destruct old_data as [|o old_data]; cbn [BbEeProg.zip_longest length].
    + rewrite IH. cbn. lia.
    + rewrite IH. lia.
Qed.

Lemma changed_in data : forall old_data n a b,
  In (a, b) (changed (BbEeProg.zip_longest data old_data) n) <->
  exists k : nat,
    a = n + Z.of_nat k /\ nth_error data k = Some b /\
    nth_error old_data k <> Some b.
Proof.
  induction data as [|byte data IH]; intros old_data n a b.
  - split.
    + destruct old_data; cbn; intros [].
    + intros (k & _ & H & _). destruct k; discriminate H.
  - assert (Hstep : forall old', 
               (exists k : nat, a = n + 1 + Z.of_nat k /\ nth_error data k = Some b /\
                                nth_error old' k <> Some b) <->
               (exists k : nat, a = n + Z.of_nat (S k) /\
                                nth_error (byte :: data) (S k) = Some b /\
                                nth_error old' k <> Some b)).
    { intros old'. split; intros (k & Ha & Hd & Ho); exists k;
        (split; [lia|split; assumption]). }
    destruct old_data as [|o old_data]; cbn [BbEeProg.zip_longest changed BbEeProg.py_eq].
    + split.
      * intros [H|H].
        -- inversion H; subst. exists 0%nat. split; [lia|]. split; [reflexivity|discriminate].
        -- apply IH in H. destruct H as (k & Ha & Hd & _).
           exists (S k). split; [lia|]. split; [exact Hd|]. destruct k; discriminate.
      * intros ([|k] & Ha & Hd & Ho).
        -- left. cbn in Hd. inversion Hd; subst. f_equal. lia.
        -- right. apply IH. exists k. split; [lia|]. split; [exact Hd|].
           destruct k; discriminate.
    + destruct (byte =? o) eqn:Eq.
      * apply Z.eqb_eq in Eq. subst o. cbn [app]. split.
        -- intros H. apply IH in H. destruct H as (k & Ha & Hd & Ho).
           exists (S k). split; [lia|]. split; assumption.
        -- intros ([|k] & Ha & Hd & Ho).
           ++ cbn in Hd, Ho. congruence.
           ++ apply IH. exists k. split; [lia|]. split; assumption.
      * apply Z.eqb_neq in Eq. cbn [app]. split.
        -- intros [H|H].
           ++ inversion H; subst. exists 0%nat. split; [lia|].
              split; [reflexivity|]. cbn. congruence.
           ++ apply IH in H. destruct H as (k & Ha & Hd & Ho).
              exists (S k). split; [lia|]. split; assumption.
        -- intros ([|k] & Ha & Hd & Ho).
           ++ left. cbn in Hd. inversion Hd; subst. f_equal. lia.
           ++ right. apply IH. exists k. split; [lia|]. split; assumption.
Qed.

Lemma ascending_weaken l : forall lo lo', lo' <= lo -> ascending lo l -> ascending lo' l.
Proof.
  destruct l as [|[a b] l]; intros lo lo' H; cbn; [auto|].
  intros [H1 H2]. split; [lia|exact H2].
Qed.

Lemma changed_ascending items : forall n, ascending n (changed items n).
Proof.
  induction items as [|[[byte|] old_byte] items IH]; intros n; cbn [changed].
  - exact I.
  - destruct (BbEeProg.py_eq byte old_byte); cbn [app].
    + apply (ascending_weaken _ (n + 1)); [lia|apply IH].
    + split; [lia|apply IH].
  - exact I.
Qed.

(** After the loop, [write] prints at most one more line and calls
    [write_byte] no more. *)
Lemma write_after_loop_any data old_data st l p' w' :
  BbEeProg.for_loop (BbEeProg.zip_longest data old_data) 0 locals0 st
  = (Ok l, (p', w')) ->
  exists res w'' last,
    BbEeProg.write data old_data st = (res, (p', w'')) /\
    trace w'' = trace w' ++ last /\ byte_writes last = [] /\
    wire w'' = wire w'.
Proof.
  intros E. unfold BbEeProg.write. fold locals0. unfold bind at 1. rewrite E.
  destruct (negb (BbEeProg.last_chunk_was_old l)).
  - destruct (BbEeProg.addr l).
    + eexists _, _, [_]. split; [reflexivity|]. repeat split.
    + eexists _, _, []. split; [reflexivity|]. rewrite app_nil_r. repeat split.
  - destruct (BbEeProg.last_chunk_start l =? 0).
    + eexists _, _, [_]. split; [reflexivity|]. repeat split.
    + destruct (BbEeProg.addr l).
      * eexists _, _, [_]. split; [reflexivity|]. repeat split.
      * eexists _, _, []. split; [reflexivity|]. rewrite app_nil_r. repeat split.
Qed.

(** X13.  Inside the address space [write] calls [write_byte] for exactly
    the bytes that differ from the old data, in increasing address order:
    address [k] is written, with the data's byte, if and only if the data
    has a byte at [k] and the old data has no byte there or a different
    one. *)
Theorem X13_write_writes_the_changes
    (data old_data : list Z) (p : BbEeProg.t) (w : World) :
  wired p ->
  Z.of_nat (length data) <= 32768 -> Z.of_nat (length old_data) <= 32768 ->
  exists res p' w' new,
    BbEeProg.write data old_data (p, w) = (res, (p', w')) /\
    trace w' = trace w ++ new /\
    ascending 0 (byte_writes new) /\
    forall a b,
      In (a, b) (byte_writes new) <->
      exists k : nat,
        a = Z.of_nat k /\ nth_error data k = Some b /\
        nth_error old_data k <> Some b.
Proof.
  intros Hp Hd Ho.
  destruct (for_loop_ok (BbEeProg.zip_longest data old_data) 0 locals0 p w Hp
              ltac:(rewrite zip_longest_length; lia))
    as (l & p' & w' & new & E & Hp' & T & B & _).
  destruct (write_after_loop_any data old_data (p, w) l p' w' E)
    as (res & w'' & last & W & T' & B' & _).
  exists res, p', w'', (new ++ last).
  split; [exact W|]. split; [rewrite T', T, app_assoc; reflexivity|].
  rewrite byte_writes_app, B, B', app_nil_r.
  split; [apply changed_ascending|].
  intros a b. rewrite changed_in. split; intros (k & Ha & H); exists k;
    (split; [lia|exact H]).
Qed.

Lemma X13_witness :
  (wired (fst session0) /\ Z.of_nat (length [1; 2; 3; 4]) <= 32768 /\
   Z.of_nat (length [1; 9; 3]) <= 32768) /\
  exists res p' w' new,
    BbEeProg.write [1; 2; 3; 4] [1; 9; 3] (fst session0, snd session0)
    = (res, (p', w')) /\
    trace w' = trace (snd session0) ++ new /\
    ascending 0 (byte_writes new) /\
    forall a b,
      In (a, b) (byte_writes new) <->
      exists k : nat,
        a = Z.of_nat k /\ nth_error [1; 2; 3; 4] k = Some b /\
        nth_error [1; 9; 3] k <> Some b.
Proof.
  split; [split; [repeat split|simpl; lia]|].
  apply (X13_write_writes_the_changes [1; 2; 3; 4] [1; 9; 3] (fst session0) (snd session0)).
  - repeat split.
  - simpl. lia.
  - simpl. lia.
Defined.

(** ** [BbEeProg.write]: the reports *)

Lemma tiles_app rs : forall from prev mid rs' to,
  tiles from prev rs mid -> tiles mid (last_kind prev rs) rs' to ->
  tiles from prev (rs ++ rs') to.
Proof.
  induction rs as [|r rs IH]; intros from prev mid rs' to H1 H2.
  - cbn in *. subst mid. exact H2.
  - destruct r as [f la c|f la c|]; cbn [app tiles last_kind run_kind] in *;
      try contradiction;
      destruct H1 as (A & B & C & D & H1); repeat (split; [assumption|]);
      eapply IH; eassumption.
Qed.

Lemma last_kind_snoc rs : forall prev r,
  last_kind prev (rs ++ [r]) = run_kind r.
Proof. induction rs as [|r0 rs IH]; intros prev r; cbn; [reflexivity|apply IH]. Qed.

Lemma wrote_total_app rs rs' :
  wrote_total (rs ++ rs') = wrote_total rs + wrote_total rs'.
Proof.
  induction rs as [|[f la c|f la c|] rs IH]; cbn [app wrote_total]; lia.
Qed.

Lemma tiles_grows rs : forall from prev to,
  tiles from prev rs to -> from <= to /\ (from = to -> rs = []).
Proof.
  induction rs as [|r rs IH]; intros from prev to H.
  - cbn in H. split; [lia|reflexivity].
  - destruct r as [f la c|f la c|]; cbn [tiles] in H; try contradiction;
      destruct H as (A & B & C & D & H); destruct (IH _ _ _ H) as [L _];
      split; lia.
Qed.

(** One pass through the loop body keeps [loop_inv]. *)
Lemma loop_body_inv n byte old_byte l p w rs k :
  wired p -> 0 <= n <= 0x7FFF -> loop_inv n l rs k ->
  exists l' p' w' new,
    BbEeProg.loop_body n byte old_byte l (p, w) = (Ok l', (p', w')) /\
    wired p' /\
    trace w' = trace w ++ new /\
    loop_inv (n + 1) l' (rs ++ reports new)
             (k + Z.of_nat (length (byte_writes new))) /\
    BbEeProg.addr l' = BbEeProg.addr l.
Proof.
  intros Hp Hn (Ht & Hk & Hs & Hc).
  pose proof (tiles_grows _ _ _ _ Ht) as [Hs0 _].
  unfold BbEeProg.loop_body.
  destruct (BbEeProg.py_eq byte old_byte).
  - destruct (BbEeProg.last_chunk_was_old l) eqn:Ho; cbn [negb].
    + (* inside a skipped run *)
      exists l, p, w, []. rewrite !app_nil_r. cbn [byte_writes flat_map length].
      split; [reflexivity|]. split; [exact Hp|]. split; [reflexivity|].
      split; [|reflexivity].
      unfold loop_inv. rewrite Ho in *. repeat split; try assumption.
      * left. destruct Hs as [Hs|(_ & _ & F & _)]; [lia|discriminate].
      * lia.
    + (* a skipped run starts *)
      unfold BbEeProg.when. destruct (n =? 0) eqn:N0; cbn [negb].
      * apply Z.eqb_eq in N0. subst n.
        destruct Hs as [Hs|(_ & S0 & _ & R0)]; [lia|]. subst rs.
        eexists _, p, w, []. rewrite !app_nil_r. cbn [byte_writes flat_map length].
        split; [reflexivity|]. split; [exact Hp|]. split; [reflexivity|].
        split; [|reflexivity].
        unfold loop_inv.
        cbn [BbEeProg.last_chunk_start BbEeProg.last_chunk_was_old tiles last_kind
             wrote_total].
        rewrite S0 in Hc. cbn [wrote_total] in Hc.
        split; [reflexivity|]. split; [discriminate|]. split; [left; lia|lia].
      * apply Z.eqb_neq in N0.
        destruct Hs as [Hs|(F & _)]; [|lia].
        eexists _, p, _, [_]. unfold bind. rewrite print_run. cbn [ret].
        split; [reflexivity|]. split; [exact Hp|]. split; [reflexivity|].
        split; [|reflexivity].
        unfold loop_inv.
        cbn [reports flat_map snd app byte_writes length
             BbEeProg.last_chunk_start BbEeProg.last_chunk_was_old].
        split; [|split; [|split]].
        -- replace n with (n - 1 + 1) at 3 by lia.
           eapply tiles_app; [exact Ht|]. cbn [tiles].
           repeat split; try lia. exact Hk.
        -- rewrite last_kind_snoc. cbn. discriminate.
        -- left. lia.
        -- rewrite wrote_total_app. cbn [wrote_total]. lia.
  - assert (Hn' : n <= 0x7FFF) by lia.
    destruct (BbEeProg.last_chunk_was_old l) eqn:Ho.
    + (* a skipped run ends *)
      destruct Hs as [Hs|(_ & _ & F & _)]; [|discriminate].
      unfold bind at 1. unfold bind at 1. rewrite print_run. unfold ret at 1.
      unfold bind at 1. rewrite (write_byte_ok _ _ _ _ Hp Hn'). unfold ret.
      destruct (byte_world_new n byte p
                  (emit (Print (Skipped (BbEeProg.last_chunk_start l) (n - 1)
                                        (n - BbEeProg.last_chunk_start l))) w) Hp)
        as (new & E & Hb & Hr).
      eexists _, _, _, (_ :: new). split; [reflexivity|].
      split; [apply byte_prog_wired; exact Hp|].
      split; [rewrite E; cbn [emit trace]; rewrite <- app_assoc; reflexivity|].
      split; [|reflexivity].
      unfold loop_inv.
      cbn [reports byte_writes flat_map snd app
           BbEeProg.last_chunk_start BbEeProg.last_chunk_was_old].
      fold (reports new). fold (byte_writes new). rewrite Hr, Hb. cbn [length].
      split; [|split; [|split]].
      * replace n with (n - 1 + 1) at 3 by lia.
        eapply tiles_app; [exact Ht|]. cbn [tiles].
        repeat split; try lia. exact Hk.
      * rewrite last_kind_snoc. cbn. discriminate.
      * left. lia.
      * rewrite wrote_total_app. cbn [wrote_total]. lia.
    + (* inside a written run *)
      unfold bind at 1. unfold ret at 1.
      unfold bind at 1. rewrite (write_byte_ok _ _ _ _ Hp Hn'). unfold ret.
      destruct (byte_world_new n byte p w Hp) as (new & E & Hb & Hr).
      exists l, (byte_prog n byte p w), (byte_world n byte p w), new.
      split; [reflexivity|]. split; [apply byte_prog_wired; exact Hp|].
      split; [exact E|]. split; [|reflexivity].
      unfold loop_inv. rewrite Hr, Hb, app_nil_r, Ho in *. cbn [length].
      repeat split; try assumption.
      * left. destruct Hs as [Hs|(N0 & S0 & _)]; lia.
      * lia.
Qed.

(** The loop over items that all have a byte keeps [loop_inv]. *)
Lemma for_loop_inv items : forall n l p w rs k,
  wired p -> 0 <= n -> n + Z.of_nat (length items) <= 32768 ->
  Forall (fun item : option Z * option Z => fst item <> None) items ->
  loop_inv n l rs k ->
  exists l' p' w' new,
    BbEeProg.for_loop items n l (p, w) = (Ok l', (p', w')) /\
    wired p' /\
    trace w' = trace w ++ new /\
    loop_inv (n + Z.of_nat (length items)) l' (rs ++ reports new)
             (k + Z.of_nat (length (byte_writes new))) /\
    BbEeProg.addr l'
    = match items with
      | [] => BbEeProg.addr l
      | _ => Some (n + Z.of_nat (length items) - 1)
      end.
Proof.
  induction items as [|[byte old_byte] items IH]; intros n l p w rs k Hp Hn Hfit Hb Hi.
  - exists l, p, w, []. rewrite !app_nil_r. cbn [length byte_writes flat_map].
    rewrite !Z.add_0_r.
    split; [reflexivity|]. split; [exact Hp|]. split; [reflexivity|].
    split; [exact Hi|reflexivity].
  - inversion Hb as [|? ? Hb1 Hb2]; subst. cbn [fst] in Hb1.
    destruct byte as [byte|]; [|congruence].
    cbn [length] in Hfit. cbn [BbEeProg.for_loop].
    unfold bind at 1, assert.
    assert (Hlt : (n <? 2 ^ 15) = true) by (apply Z.ltb_lt; lia).
    rewrite Hlt. unfold ret at 1.
    set (l1 := {| BbEeProg.last_chunk_was_old := BbEeProg.last_chunk_was_old l;
                  BbEeProg.last_chunk_start := BbEeProg.last_chunk_start l;
                  BbEeProg.addr := Some n |}).
    assert (Hi1 : loop_inv n l1 rs k) by exact Hi.
    destruct (loop_body_inv n byte old_byte l1 p w rs k Hp ltac:(lia) Hi1)
      as (l2 & p2 & w2 & new2 & E2 & Hp2 & T2 & I2 & A2).
    unfold bind. rewrite E2.
    fold (@bind (BbEeProg.t * World) BbEeProg.Locals BbEeProg.Locals).
    destruct (IH (n + 1) l2 p2 w2 _ _ Hp2 ltac:(lia) ltac:(lia) Hb2 I2)
      as (l3 & p3 & w3 & new3 & E3 & Hp3 & T3 & I3 & A3).
    exists l3, p3, w3, (new2 ++ new3).
    split; [exact E3|]. split; [exact Hp3|].
    split; [rewrite T3, T2, app_assoc; reflexivity|]. split.
    + rewrite reports_app, byte_writes_app, length_app, app_assoc.
      replace (n + Z.of_nat (length ((Some byte, old_byte) :: items)))
        with (n + 1 + Z.of_nat (length items)) by (cbn [length]; lia).
      replace (k + Z.of_nat (length (byte_writes new2) + length (byte_writes new3)))
        with (k + Z.of_nat (length (byte_writes new2))
              + Z.of_nat (length (byte_writes new3))) by lia.
      exact I3.
    + rewrite A3. destruct items as [|i items].
      * rewrite A2. cbn [l1 BbEeProg.addr length]. f_equal. lia.
      * f_equal. cbn [length]. lia.
Qed.

Lemma loop_inv_start : loop_inv 0 locals0 [] 0.
Proof.
  unfold loop_inv. cbn. split; [reflexivity|]. split; [discriminate|].
  split; [right; repeat split|reflexivity].
Qed.

(** The last report, when the loop has kept [loop_inv] up to index [m]
    and has left [addr] at [a]. *)
Lemma write_final data old_data st l p' w' m a rs k :
  BbEeProg.for_loop (BbEeProg.zip_longest data old_data) 0 locals0 st
  = (Ok l, (p', w')) ->
  BbEeProg.addr l = Some a -> 0 <= a -> m <= a + 1 ->
  loop_inv m l rs k ->
  exists r,
    BbEeProg.write data old_data st = (Ok tt, (p', emit (Print r) w')) /\
    ((r = NothingToDo /\ rs = []) \/ tiles 0 None (rs ++ [r]) (a + 1)) /\
    wrote_total (rs ++ [r])
    = k + (if BbEeProg.last_chunk_was_old l then 0 else a + 1 - m) /\
    run_kind r
    = (if BbEeProg.last_chunk_was_old l
       then if BbEeProg.last_chunk_start l =? 0 then None else Some true
       else Some false).
Proof.
  intros E Ha Ha0 Hm (Ht & Hk & Hs & Hc).
  pose proof (tiles_grows _ _ _ _ Ht) as [Hs0 Hnil].
  assert (Hsa : BbEeProg.last_chunk_start l <= a)
    by (destruct Hs as [Hs|(M0 & S0 & _)]; lia).
  unfold BbEeProg.write. fold locals0. unfold bind at 1. rewrite E.
  destruct (BbEeProg.last_chunk_was_old l) eqn:Ho; cbn [negb].
  - destruct (BbEeProg.last_chunk_start l =? 0) eqn:Z0.
    + apply Z.eqb_eq in Z0. exists NothingToDo. split; [reflexivity|].
      assert (R0 : rs = []) by (apply Hnil; lia). subst rs.
      split; [left; split; reflexivity|]. split; [|reflexivity].
      cbn in *. lia.
    + rewrite Ha. eexists. split; [reflexivity|]. split; [|split; [|reflexivity]].
      * right. eapply tiles_app; [exact Ht|]. cbn [tiles].
        repeat split; try lia. exact Hk.
      * rewrite wrote_total_app. cbn [wrote_total]. lia.
  - rewrite Ha. eexists. split; [reflexivity|]. split; [|split; [|reflexivity]].
    + right. eapply tiles_app; [exact Ht|]. cbn [tiles].
      repeat split; try lia. exact Hk.
    + rewrite wrote_total_app. cbn [wrote_total]. lia.
Qed.

(** X14.  When the old data is not longer than the (non-empty) data and
    the data fits the address space, [write] returns and its reports are
    either the single line "Nothing to do" or runs that tile the addresses
    0 .. len(data)-1 without gap or overlap, written and skipped runs
    alternating, each count being the length of its run; and the counts
    of the written runs add up to the number of [write_byte] calls. *)
Theorem X14_reports_tile_the_data
    (data old_data : list Z) (p : BbEeProg.t) (w : World) :
  wired p -> data <> [] ->
  (length old_data <= length data)%nat -> Z.of_nat (length data) <= 32768 ->
  exists p' w' new,
    BbEeProg.write data old_data (p, w) = (Ok tt, (p', w')) /\
    trace w' = trace w ++ new /\
    (reports new = [NothingToDo] \/
     tiles 0 None (reports new) (Z.of_nat (length data))) /\
    wrote_total (reports new) = Z.of_nat (length (byte_writes new)).
Proof.
  intros Hp Hne Hlen Hfit.
  destruct (zip_longest_bytes data old_data Hlen) as [F L].
  destruct (for_loop_inv (BbEeProg.zip_longest data old_data) 0 locals0 p w [] 0
              Hp ltac:(lia) ltac:(rewrite L; lia) F loop_inv_start)
    as (l & p' & w' & new & E & Hp' & T & I & A).
  rewrite L in I, A. cbn [app] in I. rewrite !Z.add_0_l in I.
  assert (Hpos : 0 < Z.of_nat (length data))
    by (destruct data; [congruence|cbn [length]; lia]).
  assert (A' : BbEeProg.addr l = Some (Z.of_nat (length data) - 1)).
  { rewrite A. destruct data as [|b d]; [congruence|].
    destruct old_data; cbn [BbEeProg.zip_longest]; f_equal; lia. }
  destruct (write_final data old_data (p, w) l p' w' (Z.of_nat (length data))
              (Z.of_nat (length data) - 1) (reports new)
              (Z.of_nat (length (byte_writes new))) E A' ltac:(lia) ltac:(lia) I)
    as (r & W & Hr & Hw & _).
  exists p', (emit (Print r) w'), (new ++ [(clock w', Print r)]).
  split; [exact W|]. split; [cbn [emit trace]; rewrite T, app_assoc; reflexivity|].
  rewrite reports_app, byte_writes_app.
  cbn [reports byte_writes flat_map snd app]. fold (reports new). rewrite app_nil_r.
  split.
  - destruct Hr as [[-> R0]|Hr]; [left; rewrite R0; reflexivity|right].
    replace (Z.of_nat (length data)) with (Z.of_nat (length data) - 1 + 1) by lia.
    exact Hr.
  - rewrite Hw. destruct (BbEeProg.last_chunk_was_old l); lia.
Qed.

Lemma X14_witness :
  (wired (fst session0) /\ [1; 2; 3; 4] <> [] /\
   (length [1; 9; 3; 4] <= length [1; 2; 3; 4])%nat /\
   Z.of_nat (length [1; 2; 3; 4]) <= 32768) /\
  exists p' w' new,
    BbEeProg.write [1; 2; 3; 4] [1; 9; 3; 4] (fst session0, snd session0)
    = (Ok tt, (p', w')) /\
    trace w' = trace (snd session0) ++ new /\
    (reports new = [NothingToDo] \/
     tiles 0 None (reports new) (Z.of_nat (length [1; 2; 3; 4]))) /\
    wrote_total (reports new) = Z.of_nat (length (byte_writes new)).
Proof.
  split; [split; [repeat split|split; [discriminate|split; simpl; lia]]|].
  apply (X14_reports_tile_the_data [1; 2; 3; 4] [1; 9; 3; 4] (fst session0) (snd session0)).
  - repeat split.
  - discriminate.
  - simpl. lia.
  - simpl. lia.
Defined.

Lemma zip_longest_break data old_data :
  (length data < length old_data)%nat ->
  exists o rest,
    BbEeProg.zip_longest data old_data
    = BbEeProg.zip_longest data (firstn (length data) old_data)
      ++ (None, Some o) :: rest.
Proof.
  intros H.
  rewrite (zip_longest_split (length data) data old_data ltac:(lia)).
  rewrite firstn_all, skipn_all. cbn [BbEeProg.zip_longest].
  destruct (skipn (length data) old_data) as [|o rest] eqn:Es.
  - apply (f_equal (@length _)) in Es. rewrite length_skipn in Es. cbn in Es. lia.
  - exists o, (map (fun old_byte => (None, Some old_byte)) rest). reflexivity.
Qed.

(** X15.  When the old data is longer than the data (and the data is
    shorter than the address space), the loop is left by [break] with
    [addr] one past the last data byte, and the final report is computed
    from it: [write] returns, and its reports are "Nothing to do" or runs
    that tile the addresses 0 .. len(data), one address more than there
    is data; when the last run is a written one, the written runs count
    one byte more than the [write_byte] calls that were made, otherwise
    they count them exactly. *)
Theorem X15_longer_old_data_reports_one_more
    (data old_data : list Z) (p : BbEeProg.t) (w : World) :
  wired p ->
  (length data < length old_data)%nat -> Z.of_nat (length data) < 32768 ->
  exists p' w' new,
    BbEeProg.write data old_data (p, w) = (Ok tt, (p', w')) /\
    trace w' = trace w ++ new /\
    (reports new = [NothingToDo] \/
     tiles 0 None (reports new) (Z.of_nat (length data) + 1)) /\
    wrote_total (reports new)
    = Z.of_nat (length (byte_writes new))
      + (match last_kind None (reports new) with Some false => 1 | _ => 0 end).
Proof.
  intros Hp Hlen Hfit.
  destruct (zip_longest_break data old_data Hlen) as (o & rest & Ez).
  set (xs := BbEeProg.zip_longest data (firstn (length data) old_data)) in *.
  assert (Hlo : (length (firstn (length data) old_data) <= length data)%nat)
    by apply firstn_le_length.
  destruct (zip_longest_bytes data _ Hlo) as [F L]. fold xs in F, L.
  destruct (for_loop_inv xs 0 locals0 p w [] 0
              Hp ltac:(lia) ltac:(rewrite L; lia) F loop_inv_start)
    as (l & p' & w' & new & E & Hp' & T & I & A).
  rewrite L in I. cbn [app] in I. rewrite !Z.add_0_l in I.
  set (n := Z.of_nat (length data)) in *.
  set (l1 := {| BbEeProg.last_chunk_was_old := BbEeProg.last_chunk_was_old l;
                BbEeProg.last_chunk_start := BbEeProg.last_chunk_start l;
                BbEeProg.addr := Some n |}).
  assert (El : BbEeProg.for_loop (BbEeProg.zip_longest data old_data) 0 locals0 (p, w)
               = (Ok l1, (p', w'))).
  { rewrite Ez, (for_loop_app xs _ 0 locals0 (p, w) F).
    unfold bind at 1. rewrite E, L. cbn [BbEeProg.for_loop].
    unfold bind, assert. rewrite Z.add_0_l. fold n.
    replace (n <? 2 ^ 15) with true by (symmetry; apply Z.ltb_lt; lia).
    reflexivity. }
  assert (I1 : loop_inv n l1 (reports new) (Z.of_nat (length (byte_writes new))))
    by exact I.
  destruct (write_final data old_data (p, w) l1 p' w' n n (reports new)
              (Z.of_nat (length (byte_writes new))) El eq_refl ltac:(lia) ltac:(lia) I1)
    as (r & W & Hr & Hw & Hkind).
  exists p', (emit (Print r) w'), (new ++ [(clock w', Print r)]).
  split; [exact W|]. split; [cbn [emit trace]; rewrite T, app_assoc; reflexivity|].
  rewrite reports_app, byte_writes_app.
  cbn [reports byte_writes flat_map snd app]. fold (reports new). rewrite app_nil_r.
  split.
  - destruct Hr as [[-> R0]|Hr]; [left; rewrite R0; reflexivity|right; exact Hr].
  - rewrite Hw, last_kind_snoc, Hkind. cbn [l1 BbEeProg.last_chunk_was_old BbEeProg.last_chunk_start].
    destruct (BbEeProg.last_chunk_was_old l); [|lia].
    destruct (BbEeProg.last_chunk_start l =? 0); lia.
Qed.

Lemma X15_witness :
  (wired (fst session0) /\ (length [1; 2] < length [1; 9; 3])%nat /\
   Z.of_nat (length [1; 2]) < 32768) /\
  exists p' w' new,
    BbEeProg.write [1; 2] [1; 9; 3] (fst session0, snd session0) = (Ok tt, (p', w')) /\
    trace w' = trace (snd session0) ++ new /\
    (reports new = [NothingToDo] \/
     tiles 0 None (reports new) (Z.of_nat (length [1; 2]) + 1)) /\
    wrote_total (reports new)
    = Z.of_nat (length (byte_writes new))
      + (match last_kind None (reports new) with Some false => 1 | _ => 0 end).
Proof.
  split; [split; [repeat split|split; simpl; lia]|].
  apply (X15_longer_old_data_reports_one_more [1; 2] [1; 9; 3] (fst session0) (snd session0)).
  - repeat split.
  - simpl. lia.
  - simpl. lia.
Defined.



(** ** [write_file], [write_file_diff] and [_file_read_bytes] *)

Lemma file_read_bytes_length f : length (_file_read_bytes f) = length f.
Proof. induction f as [|b f IH]; cbn; [|rewrite IH]; reflexivity. Qed.

Lemma file_read_bytes_app f g :
  _file_read_bytes (f ++ g) = _file_read_bytes f ++ _file_read_bytes g.
Proof. induction f as [|b f IH]; cbn; [|rewrite IH]; reflexivity. Qed.

Lemma file_read_bytes_range f :
  Forall (fun v => 0 <= v < 256) (_file_read_bytes f).
Proof.
  induction f as [|b f IH]; cbn [_file_read_bytes]; constructor; [|exact IH].
  pose proof (Byte.to_N_bounded b). lia.
Qed.

Lemma enumerate_values data : forall n, map snd (enumerate data n) = data.
Proof. induction data as [|b data IH]; intros n; cbn; [|rewrite IH]; reflexivity. Qed.

(** X17.  Flashing a non-empty file of at most 2^15 bytes without old
    file: [write_file] returns, calls [write_byte] once per byte of the
    file, in file order at the addresses 0, 1, 2, ..., each time with a
    value in [0,256) (so the 8-bit mask of the chip changes nothing), and
    prints the one report of a written run over the whole file. *)
Theorem X17_write_file (file : list Byte.byte) (p : BbEeProg.t) (w : World) :
  wired p -> file <> [] -> Z.of_nat (length file) <= 32768 ->
  exists p' w' new,
    write_file file (p, w) = (Ok tt, (p', w')) /\
    trace w' = trace w ++ new /\
    byte_writes new = enumerate (_file_read_bytes file) 0 /\
    map snd (byte_writes new) = map (fun b => Z.of_N (Byte.to_N b)) file /\
    Forall (fun ab : Z * Z => 0 <= snd ab < 256) (byte_writes new) /\
    reports new
    = [Wrote 0 (Z.of_nat (length file) - 1) (Z.of_nat (length file))].
Proof.
  intros Hp Hne Hfit. unfold write_file.
  set (data := _file_read_bytes file).
  assert (Hl : length data = length file) by apply file_read_bytes_length.
  destruct (for_loop_no_baseline data 0 locals0 p w Hp ltac:(lia) eq_refl)
    as (l & p' & w' & new & E & Hp' & T & B & R & Ho & Hs & Ha).
  assert (Ha' : BbEeProg.addr l = Some (Z.of_nat (length file) - 1)).
  { rewrite Ha. destruct data eqn:Ed.
    - destruct file; [congruence|discriminate Hl].
    - rewrite Hl. f_equal; try lia. }
  destruct (write_after_loop data [] (p, w) l _ p' w' E Ha') as (r & W & Hr & _).
  specialize (Hr Ho). rewrite Hs in Hr. cbn [BbEeProg.last_chunk_start locals0] in Hr.
  exists p', (emit (Print r) w'), (new ++ [(clock w', Print r)]).
  split; [exact W|]. split; [cbn [emit trace]; rewrite T, app_assoc; reflexivity|].
  rewrite byte_writes_app, reports_app, B, R.
  cbn [byte_writes reports flat_map snd app]. rewrite app_nil_r.
  split; [reflexivity|]. split; [|split].
  - rewrite enumerate_values. unfold data. clear.
    induction file as [|b f IH]; cbn; [|rewrite IH]; reflexivity.
  - pose proof (file_read_bytes_range file) as Hr'. fold data in Hr'.
    rewrite <- (enumerate_values data 0) in Hr'.
    apply Forall_map in Hr'. exact Hr'.
  - rewrite Hr. f_equal. f_equal; lia.
Qed.

Lemma X17_witness :
  (wired (fst session0) /\ [Byte.x10; Byte.xff; Byte.x00] <> [] /\
   Z.of_nat (length [Byte.x10; Byte.xff; Byte.x00]) <= 32768) /\
  exists p' w' new,
    write_file [Byte.x10; Byte.xff; Byte.x00] (fst session0, snd session0)
    = (Ok tt, (p', w')) /\
    trace w' = trace (snd session0) ++ new /\
    byte_writes new = enumerate (_file_read_bytes [Byte.x10; Byte.xff; Byte.x00]) 0 /\
    map snd (byte_writes new)
    = map (fun b => Z.of_N (Byte.to_N b)) [Byte.x10; Byte.xff; Byte.x00] /\
    Forall (fun ab : Z * Z => 0 <= snd ab < 256) (byte_writes new) /\
    reports new
    = [Wrote 0 (Z.of_nat (length [Byte.x10; Byte.xff; Byte.x00]) - 1)
             (Z.of_nat (length [Byte.x10; Byte.xff; Byte.x00]))].
Proof.
  split; [split; [repeat split|split; [discriminate|simpl; lia]]|].
  apply (X17_write_file [Byte.x10; Byte.xff; Byte.x00] (fst session0) (snd session0)).
  - repeat split.
  - discriminate.
  - simpl. lia.
Defined.

(** X18.  Flashing a file against an old file that starts with the same
    bytes (in particular against itself) touches nothing: for a non-empty
    file inside the address space, [write_file_diff] calls [write_byte]
    for no address, sends no byte, leaves programmer, port and clock as
    they were, and prints the one line "Nothing to do". *)
Theorem X18_write_file_diff_same
    (file rest : list Byte.byte) (st : BbEeProg.t * World) :
  file <> [] ->
  Z.of_nat (length file) < 32768 \/
  (Z.of_nat (length file) = 32768 /\ rest = []) ->
  write_file_diff file (file ++ rest) st
  = (Ok tt, (fst st, emit (Print NothingToDo) (snd st))).
Proof.
  intros Hne Hfit. unfold write_file_diff. rewrite file_read_bytes_app.
  destruct file as [|b file]; [congruence|].
  cbn [_file_read_bytes]. cbn [length] in Hfit.
  set (byte := Z.of_N (Byte.to_N b)). set (data := _file_read_bytes file).
  set (tl := _file_read_bytes rest).
  assert (Hl : length data = length file) by apply file_read_bytes_length.
  assert (Hfit' : Z.of_nat (length data) + 1 < 32768 \/
                  (Z.of_nat (length data) + 1 = 32768 /\ tl = [])).
  { rewrite Hl. destruct Hfit as [H|[H Hr]]; [left; lia|right; split; [lia|]].
    subst rest. reflexivity. }
  destruct (for_loop_unchanged data tl 1
              {| BbEeProg.last_chunk_was_old := true;
                 BbEeProg.last_chunk_start := 0;
                 BbEeProg.addr := Some 0 |} st Hfit' eq_refl)
    as (l & E & Ho & Hs).
  unfold BbEeProg.write. unfold bind at 1.
  cbn [app BbEeProg.zip_longest BbEeProg.for_loop].
  unfold bind at 1. cbn [assert Z.ltb Z.compare Z.pow Z.pow_pos Pos.iter Z.mul Pos.mul].
  unfold ret at 1.
  unfold BbEeProg.loop_body. cbn [BbEeProg.py_eq]. rewrite Z.eqb_refl.
  cbn [BbEeProg.last_chunk_was_old BbEeProg.last_chunk_start BbEeProg.addr negb
       Z.eqb BbEeProg.when].
  unfold bind at 1. unfold bind at 1. unfold ret at 1. unfold ret at 1.
  change (0 + 1) with 1. rewrite E. rewrite Ho, Hs.
  cbn [negb BbEeProg.last_chunk_start Z.eqb].
  destruct st as [p w]. reflexivity.
Qed.

Lemma X18_witness :
  ([Byte.x10; Byte.xff] <> [] /\
   (Z.of_nat (length [Byte.x10; Byte.xff]) < 32768 \/
    (Z.of_nat (length [Byte.x10; Byte.xff]) = 32768 /\ [] = @nil Byte.byte))) /\
  write_file_diff [Byte.x10; Byte.xff] ([Byte.x10; Byte.xff] ++ []) session0
  = (Ok tt, (fst session0, emit (Print NothingToDo) (snd session0))).
Proof.
  split; [split; [discriminate|left; simpl; lia]|].
  apply (X18_write_file_diff_same [Byte.x10; Byte.xff] [] session0).
  - discriminate.
  - left. simpl. lia.
Defined.

(** X19.  An empty file cannot be flashed: [write_file] of an empty file,
    and [write_file_diff] of an empty file against an empty old file,
    fail with [UnboundLocalError] on [addr] and leave everything as it
    was.  Against an old file that is not empty, [write_file_diff] of an
    empty file returns after the report of a written run of one byte at
    address 0, although it calls [write_byte] for no address and sends
    nothing. *)
Theorem X19_empty_file :
  (forall st : BbEeProg.t * World,
      write_file [] st = (Raise (UnboundLocalError "addr"), st) /\
      write_file_diff [] [] st = (Raise (UnboundLocalError "addr"), st)) /\
  (forall (b : Byte.byte) (diff_file : list Byte.byte) (st : BbEeProg.t * World),
      write_file_diff [] (b :: diff_file) st
      = (Ok tt, (fst st, emit (Print (Wrote 0 0 1)) (snd st)))).
Proof.
  split.
  - intros st. split; reflexivity.
  - intros b diff_file [p w]. reflexivity.
Qed.

(** ** What reaches the port *)

Lemma byte_world_wire addr byte p w :
  wire (byte_world addr byte p w)
  = wire w ++ sent (BbEeProg._data p) byte
    ++ sent (BbEeProg._addr_lo p) (Z.land addr 0xFF)
    ++ sent (BbEeProg._addr_hi p) (hi_idle addr)
    ++ sent (latched (BbEeProg._addr_hi p) (hi_idle addr)) (Z.shiftr addr 8)
    ++ sent (latched (latched (BbEeProg._addr_hi p) (hi_idle addr)) (Z.shiftr addr 8))
            (hi_idle addr).
Proof.
  unfold byte_world, strobed.
  rewrite !chip_world_wire, waited_wire, settled_wire, <- !app_assoc. reflexivity.
Qed.

Lemma sent_stream c value :
  exists pairs,
    sent c value = telegram_stream pairs /\
    Forall (fun av : Z * Z => fst av = SN74LV8153._addr c /\ 0 <= snd av < 256) pairs.
Proof.
  unfold sent. destruct (_ =? _).
  - exists []. split; [reflexivity|constructor].
  - exists [(SN74LV8153._addr c, Z.land value 0xFF)]. split; [reflexivity|].
    constructor; [|constructor]. cbn [fst snd]. split; [reflexivity|apply mask_is_byte].
Qed.

Lemma telegram_stream_app ps qs :
  telegram_stream (ps ++ qs) = telegram_stream ps ++ telegram_stream qs.
Proof. apply flat_map_app. Qed.

(** One byte write sends a stream of telegram pairs for chips 0, 1, 2. *)
Lemma byte_world_stream addr byte p w :
  wired p ->
  exists pairs,
    wire (byte_world addr byte p w) = wire w ++ telegram_stream pairs /\
    Forall (fun av : Z * Z => 0 <= fst av <= 2 /\ 0 <= snd av < 256) pairs.
Proof.
  intros (Hlo & Hhi & Hdat). rewrite byte_world_wire.
  destruct (sent_stream (BbEeProg._data p) byte) as (p1 & -> & F1).
  destruct (sent_stream (BbEeProg._addr_lo p) (Z.land addr 0xFF)) as (p2 & -> & F2).
  destruct (sent_stream (BbEeProg._addr_hi p) (hi_idle addr)) as (p3 & -> & F3).
  destruct (sent_stream (latched (BbEeProg._addr_hi p) (hi_idle addr)) (Z.shiftr addr 8))
    as (p4 & -> & F4).
  destruct (sent_stream (latched (latched (BbEeProg._addr_hi p) (hi_idle addr))
                                 (Z.shiftr addr 8)) (hi_idle addr))
    as (p5 & -> & F5).
  exists (p1 ++ p2 ++ p3 ++ p4 ++ p5).
  rewrite !telegram_stream_app. split; [reflexivity|].
  cbn [latched SN74LV8153._addr] in F4, F5.
  rewrite Hdat in F1. rewrite Hlo in F2. rewrite Hhi in F3, F4, F5.
  repeat (apply Forall_app; split);
    (eapply Forall_impl; [|eassumption]); cbn beta; intros av [-> H]; lia.
Qed.

(** X20.  Whatever [write] sends is a sequence of complete telegram
    pairs: however the run ends, the port has received what it had before
    followed by the low-nibble and high-nibble telegrams of some values in
    [0,256) for chips 0, 1 and 2, pair after pair; nothing is removed, no
    half pair is sent and no other chip is addressed. *)
Theorem X20_write_sends_telegram_pairs
    (data old_data : list Z) (p p' : BbEeProg.t) (w w' : World) (res : Result unit) :
  wired p ->
  BbEeProg.write data old_data (p, w) = (res, (p', w')) ->
  exists pairs,
    wire w' = wire w ++ telegram_stream pairs /\
    Forall (fun av : Z * Z =>
              0 <= fst av <= 2 /\ 0 <= snd av < 256 /\
              SN74LV8153._protocol (fst av) (snd av) = Ok (telegrams av)) pairs.
Proof.
  intros Hp E.
  pose (Inv := fun st : BbEeProg.t * World =>
          exists pairs,
            wire (snd st) = wire w ++ telegram_stream pairs /\
            Forall (fun av : Z * Z => 0 <= fst av <= 2 /\ 0 <= snd av < 256) pairs).
  assert (H : wired p' /\ Inv (p', w')).
  { apply (write_keeps Inv) with (data := data) (old_data := old_data)
      (p := p) (w := w) (res := res); try assumption.
    - intros a b p0 w0 Hp0 _ (ps & Hw & F). unfold Inv. cbn [fst snd] in *.
      destruct (byte_world_stream a b p0 w0 Hp0) as (qs & Hq & G).
      exists (ps ++ qs). rewrite Hq, Hw, telegram_stream_app, app_assoc.
      split; [reflexivity|]. apply Forall_app. split; assumption.
    - intros r p0 w0 (ps & Hw & F). unfold Inv. cbn [fst snd] in *.
      exists ps. split; assumption.
    - unfold Inv. cbn [fst snd]. exists []. split; [|constructor].
      cbn. symmetry. apply app_nil_r. }
  destruct H as (_ & ps & Hw & F). exists ps. split; [exact Hw|].
  eapply Forall_impl; [|exact F]. cbn beta. intros av [Ha Hv].
  split; [exact Ha|]. split; [exact Hv|].
  unfold telegrams. apply protocol_ok; lia.
Qed.

Lemma X20_witness :
  (wired (fst session0) /\
   BbEeProg.write [1; 2; 3; 4] [1; 9; 3; 4] (fst session0, snd session0)
   = (fst diff_run, (fst (snd diff_run), snd (snd diff_run)))) /\
  exists pairs,
    wire (snd (snd diff_run)) = wire (snd session0) ++ telegram_stream pairs /\
    Forall (fun av : Z * Z =>
              0 <= fst av <= 2 /\ 0 <= snd av < 256 /\
              SN74LV8153._protocol (fst av) (snd av) = Ok (telegrams av)) pairs.
Proof.
  split; [split; [repeat split|exact diff_run_eq]|].
  apply (X20_write_sends_telegram_pairs [1; 2; 3; 4] [1; 9; 3; 4]
           (fst session0) (fst (snd diff_run)) (snd session0) (snd (snd diff_run))
           (fst diff_run)).
  - repeat split.
  - exact diff_run_eq.
Defined.

(** X21.  A byte write in the 256-byte page of the byte write before it
    does not send the high address byte again: after a [write_byte] at
    [a1], a [write_byte] at an address [a2] in [0, 0x7FFF] with the same
    high byte sends at most the data pair and the low-address pair and
    then the two strobe pairs, 8 bytes at most instead of 10. *)
Theorem X21_same_page_skips_high_address
    (a1 b1 a2 b2 : Z) (p p1 : BbEeProg.t) (w w1 : World) :
  wired p -> 0 <= a2 <= 0x7FFF -> Z.shiftr a1 8 = Z.shiftr a2 8 ->
  BbEeProg.write_byte a1 b1 (p, w) = (Ok tt, (p1, w1)) ->
  exists p2 w2,
    BbEeProg.write_byte a2 b2 (p1, w1) = (Ok tt, (p2, w2)) /\
    wire w2
    = wire w1 ++ sent (BbEeProg._data p1) b2
      ++ sent (BbEeProg._addr_lo p1) (Z.land a2 0xFF)
      ++ [low_nibble 1 (a2 / 256); high_nibble 1 (a2 / 256);
          low_nibble 1 (a2 / 256 + 128); high_nibble 1 (a2 / 256 + 128)] /\
    (length (wire w2) <= length (wire w1) + 8)%nat.
Proof.
  intros Hp Ha2 Hpage H1.
  assert (Ha1 : a1 <= 0x7FFF).
  { destruct (Z.leb_spec a1 0x7FFF) as [L|G]; [exact L|].
    unfold BbEeProg.write_byte, bind, assert in H1.
    rewrite (proj2 (Z.leb_gt a1 0x7FFF) G) in H1. discriminate H1. }
  rewrite (write_byte_ok a1 b1 p w Hp Ha1) in H1.
  inversion H1; subst p1 w1; clear H1.
  set (p1 := byte_prog a1 b1 p w). set (w1 := byte_world a1 b1 p w).
  assert (Hp1 : wired p1) by (apply byte_prog_wired; exact Hp).
  destruct (hi_idle_nonneg a2 Ha2) as (Hh & Hs & Hi).
  assert (Hsame : hi_idle a1 = hi_idle a2) by (unfold hi_idle; rewrite Hpage; reflexivity).
  exists (byte_prog a2 b2 p1 w1), (byte_world a2 b2 p1 w1).
  split; [apply write_byte_ok; [exact Hp1|lia]|].
  assert (M1 : Z.land (a2 / 256) 0xFF = a2 / 256) by (apply mask_of_byte; lia).
  assert (M2 : Z.land (a2 / 256 + 128) 0xFF = a2 / 256 + 128)
    by (apply mask_of_byte; lia).
  assert (W : wire (byte_world a2 b2 p1 w1)
              = wire w1 ++ sent (BbEeProg._data p1) b2
                ++ sent (BbEeProg._addr_lo p1) (Z.land a2 0xFF)
                ++ [low_nibble 1 (a2 / 256); high_nibble 1 (a2 / 256);
                    low_nibble 1 (a2 / 256 + 128); high_nibble 1 (a2 / 256 + 128)]).
  { rewrite byte_world_wire. rewrite Hs, Hi.
    unfold sent at 3 4 5.
    cbn [p1 byte_prog BbEeProg._addr_hi latched SN74LV8153._last_value SN74LV8153._addr].
    rewrite Hsame, Hi. destruct Hp as (_ & Hhi & _). rewrite Hhi, M1, M2.
    rewrite Z.eqb_refl.
    replace (a2 / 256 =? a2 / 256 + 128) with false by (symmetry; apply Z.eqb_neq; lia).
    replace (a2 / 256 + 128 =? a2 / 256) with false by (symmetry; apply Z.eqb_neq; lia).
    reflexivity. }
  split; [exact W|]. rewrite W, !length_app. cbn [length].
  pose proof (sent_length (BbEeProg._data p1) b2).
  pose proof (sent_length (BbEeProg._addr_lo p1) (Z.land a2 0xFF)). lia.
Qed.

Lemma X21_witness :
  (wired (fst session0) /\ 0 <= 1 <= 0x7FFF /\ Z.shiftr 0 8 = Z.shiftr 1 8 /\
   BbEeProg.write_byte 0 0x11 (fst session0, snd session0)
   = (Ok tt, (fst session1, snd session1))) /\
  exists p2 w2,
    BbEeProg.write_byte 1 0x22 (fst session1, snd session1) = (Ok tt, (p2, w2)) /\
    wire w2
    = wire (snd session1) ++ sent (BbEeProg._data (fst session1)) 0x22
      ++ sent (BbEeProg._addr_lo (fst session1)) (Z.land 1 0xFF)
      ++ [low_nibble 1 (1 / 256); high_nibble 1 (1 / 256);
          low_nibble 1 (1 / 256 + 128); high_nibble 1 (1 / 256 + 128)] /\
    (length (wire w2) <= length (wire (snd session1)) + 8)%nat.
Proof.
  assert (H1 : BbEeProg.write_byte 0 0x11 (fst session0, snd session0)
               = (Ok tt, (fst session1, snd session1)))
    by (vm_compute; reflexivity).
  split; [split; [repeat split|split; [lia|split; [reflexivity|exact H1]]]|].
  exact (X21_same_page_skips_high_address 0 0x11 1 0x22 (fst session0) (fst session1)
           (snd session0) (snd session1) session0_wired ltac:(lia) eq_refl H1).
Defined.
